(** * Birthday exporter: occurrence arithmetic, contact extraction, cache refresh

    A shallow embedding of [src/cardDavReader.js] and [src/server.js].

    The two source files lean on three libraries: [dayjs] (dates), [ics]
    (serialisation) and [node-cache].  The part of [dayjs] that the source
    calls is modelled below, operation by operation, after dayjs 1.11
    ([parseDate], [isBefore], [add]/[$set], [diff] with [monthDiff] and
    [absFloor]).  Dates are local calendar dates: every date the source
    builds is a local midnight, so the time of day and the daylight-saving
    offset are left out of the model, and a time value is the day number
    times the milliseconds of a day.  In a zone that has every day of the
    calendar, the one place where the zone reaches the calendar day is the
    length dayjs gives a month; that length is a parameter of the
    operations of [Zoned].  The [ics] serialiser stays abstract. *)

From Stdlib Require Import ZArith List String Ascii Bool Lia QArith Qround.
From Stdlib Require Import DecimalString.
Import ListNotations.

Local Open Scope string_scope.
Local Open Scope Z_scope.

(** ** JavaScript string primitives used by the source *)

Module JsString.

(** [s.startsWith(p)] *)
Definition startsWith (p s : string) : bool := String.prefix p s.

(** [s.includes(p)], for a non-empty [p]. *)
Definition includes (p s : string) : bool :=
  match String.index 0 p s with
  | Some _ => true
  | None => false
  end.

(** [s.substr(from, len)], for non-negative arguments. *)
Definition substr (from len : nat) (s : string) : string :=
  String.substring from len s.

(** The rest of [s] from position [n] on. *)
Fixpoint drop (n : nat) (s : string) : string :=
  match n, s with
  | O, _ => s
  | S _, EmptyString => EmptyString
  | S n', String _ s' => drop n' s'
  end.

(** The class [\d]. *)
Definition is_digit (c : ascii) : bool :=
  let n := nat_of_ascii c in (48 <=? n)%nat && (n <=? 57)%nat.

Definition digit_val (c : ascii) : Z := Z.of_nat (nat_of_ascii c) - 48.

Fixpoint all_digits (s : string) : bool :=
  match s with
  | EmptyString => true
  | String c s' => is_digit c && all_digits s'
  end.

(** [\d{n}] at the start of [s]. *)
Definition digits_at (n : nat) (s : string) : bool :=
  let p := substr 0 n s in (String.length p =? n)%nat && all_digits p.

(** [Number(s)] for a string of decimal digits. *)
Fixpoint number_acc (acc : Z) (s : string) : Z :=
  match s with
  | EmptyString => acc
  | String c s' => number_acc (10 * acc + digit_val c) s'
  end.

Definition number (s : string) : Z := number_acc 0 s.

(** [n.toString()] for an integer. *)
Definition toString (n : Z) : string := NilZero.string_of_int (Z.to_int n).

(** Line terminators, which [.] does not match (ASCII text). *)
Definition is_line_terminator (c : ascii) : bool :=
  let n := nat_of_ascii c in (n =? 10)%nat || (n =? 13)%nat.

(** White space removed by [trim] (ASCII text). *)
Definition is_space (c : ascii) : bool :=
  let n := nat_of_ascii c in ((9 <=? n)%nat && (n <=? 13)%nat) || (n =? 32)%nat.

Fixpoint trimStart (s : string) : string :=
  match s with
  | EmptyString => EmptyString
  | String c s' => if is_space c then trimStart s' else s
  end.

Fixpoint trimEnd (s : string) : string :=
  match s with
  | EmptyString => EmptyString
  | String c s' =>
      match trimEnd s' with
      | EmptyString => if is_space c then EmptyString else String c EmptyString
      | t => String c t
      end
  end.

Definition trim (s : string) : string := trimEnd (trimStart s).

End JsString.

(** ** Calendar dates *)

(** The fields dayjs keeps of a valid date: [$y], [$M] (0 = January) and
    [$D]. *)
Record date : Type := mkDate { dy : Z; dM : Z; dD : Z }.

Definition is_leap (y : Z) : bool :=
  (y mod 4 =? 0) && (negb (y mod 100 =? 0) || (y mod 400 =? 0)).

(** [daysInMonth()] of month index [m] of year [y]. *)
Definition daysInMonth (y m : Z) : Z :=
  if m =? 1 then (if is_leap y then 29 else 28)
  else if (m =? 3) || (m =? 5) || (m =? 8) || (m =? 10) then 30
  else 31.

(** A date of the calendar. *)
Definition valid_date (d : date) : Prop :=
  0 <= dM d <= 11 /\ 1 <= dD d <= daysInMonth (dy d) (dM d).

(** Earlier calendar day. *)
Definition date_ltb (a b : date) : bool :=
  (dy a <? dy b)
  || ((dy a =? dy b) && ((dM a <? dM b) || ((dM a =? dM b) && (dD a <? dD b)))).

Definition date_leb (a b : date) : bool := negb (date_ltb b a).

(** ECMAScript [DayFromYear]. *)
Definition dayFromYear (y : Z) : Z :=
  365 * (y - 1970) + (y - 1969) / 4 - (y - 1901) / 100 + (y - 1601) / 400.

(** Days of year [y] before month index [m]. *)
Fixpoint days_before (y : Z) (m : nat) : Z :=
  match m with
  | O => 0
  | S m' => days_before y m' + daysInMonth y (Z.of_nat m')
  end.

Definition dayNumber (d : date) : Z :=
  dayFromYear (dy d) + days_before (dy d) (Z.to_nat (dM d)) + (dD d - 1).

Definition msPerDay : Z := 86400000.

(** [valueOf()] of a local midnight, up to the fixed zone offset. *)
Definition valueOf (d : date) : Z := dayNumber d * msPerDay.

(** Carry a month index outside 0..11 into the year, as ECMAScript
    [MakeDay] does. *)
Definition carry_month (y m : Z) : Z * Z := (y + m / 12, m mod 12).

(** Carry a day of month outside the month into the neighbouring months. *)
Fixpoint carry_day (fuel : nat) (y m d : Z) : date :=
  match fuel with
  | O => mkDate y m d
  | S fuel' =>
      if d <? 1 then
        let '(y', m') := carry_month y (m - 1) in
        carry_day fuel' y' m' (d + daysInMonth y' m')
      else if daysInMonth y m <? d then
        let '(y', m') := carry_month y (m + 1) in
        carry_day fuel' y' m' (d - daysInMonth y m)
      else mkDate y m d
  end.

(** [new Date(y, m, d)]: a year from 0 to 99 means 1900 + y, and month and
    day overflow into the following (or preceding) months and years. *)
Definition newDate (y m d : Z) : date :=
  let y0 := if (0 <=? y) && (y <=? 99) then 1900 + y else y in
  let '(y1, m1) := carry_month y0 m in
  carry_day (S (Z.to_nat (Z.abs d))) y1 m1 d.

(** ** The dayjs operations the source calls *)

Module Dayjs.

Import JsString.

(** A dayjs object: [None] wraps an Invalid Date. *)
Definition t : Type := option date.

(** The date groups of dayjs' [REGEX_PARSE] on the strings the extractor
    hands over: [YYYY-MM-DD] and eight digits.  Both give groups 1 to 3 and
    no time groups. *)
Definition parse_groups (s : string) : option (string * string * string) :=
  if (String.length s =? 10)%nat
     && digits_at 4 s && startsWith "-" (drop 4 s)
     && digits_at 2 (drop 5 s) && startsWith "-" (drop 7 s)
     && digits_at 2 (drop 8 s)
  then Some (substr 0 4 s, substr 5 2 s, substr 8 2 s)
  else if (String.length s =? 8)%nat && all_digits s
  then Some (substr 0 4 s, substr 4 2 s, substr 6 2 s)
  else None.

(** [dayjs(s)] for a string: on a match of [REGEX_PARSE],
    [new Date(d[1], d[2] - 1 || 0, d[3] || 1)]; the groups here are
    non-empty digit strings, so [d[3] || 1] is [d[3]], and [d[2] - 1 || 0]
    is [d[2] - 1].  Any other string goes to [new Date(s)]; that is an
    Invalid Date for the empty string, the one other value the extractor
    passes (other strings are outside this model). *)
Definition parse (s : string) : t :=
  match parse_groups s with
  | Some (y, m, d) => Some (newDate (number y) (number m - 1) (number d))
  | None => None
  end.

(** [this.isBefore(today, 'day')]: the end of this day lies before
    [today]; false for an Invalid Date. *)
Definition isBefore (this : t) (today : date) : bool :=
  match this with
  | Some d => date_ltb d today
  | None => false
  end.

(** [$set] of a month or a year: go to day 1, set the field, then come
    back to the day, clamped to the length of the month reached.  The
    length is the calendar's here; [Zoned] below has it as the time zone
    of the process gives it. *)
Definition clamp_day (y m d : Z) : date := mkDate y m (Z.min d (daysInMonth y m)).

(** [add(n, 'year')] *)
Definition add_years (n : Z) (this : t) : t :=
  match this with
  | Some a => Some (clamp_day (dy a + n) (dM a) (dD a))
  | None => None
  end.

(** [add(n, 'month')] on a valid date. *)
Definition add_months (a : date) (n : Z) : date :=
  let '(y, m) := carry_month (dy a) (dM a + n) in clamp_day y m (dD a).

(** [add(1, 'day')] on a valid date. *)
Definition add_day (a : date) : date := carry_day 2 (dy a) (dM a) (dD a + 1).

(** [Utils.m], dayjs' [monthDiff], on valid dates, once its first line
    [if (a.date() < b.date()) return -monthDiff(b, a)] has been passed. *)
Definition monthDiff_anchored (a b : date) : Q :=
  let wholeMonthDiff := (dy b - dy a) * 12 + (dM b - dM a) in
  let anchor := add_months a wholeMonthDiff in
  let c := valueOf b - valueOf anchor <? 0 in
  let anchor2 := add_months a (wholeMonthDiff + (if c then -1 else 1)) in
  (- (inject_Z wholeMonthDiff
      + inject_Z (valueOf b - valueOf anchor)
        / inject_Z (if c then valueOf anchor - valueOf anchor2
                    else valueOf anchor2 - valueOf anchor)))%Q.

Definition monthDiff (a b : date) : Q :=
  if dD a <? dD b then (- monthDiff_anchored b a)%Q else monthDiff_anchored a b.

(** [Utils.a]: [n < 0 ? Math.ceil(n) || 0 : Math.floor(n)] *)
Definition absFloor (n : Q) : Z :=
  if negb (Qle_bool 0 n) then Qceiling n else Qfloor n.

(** [this.diff(that, 'years')]: [absFloor(monthDiff(this, that) / 12)].
    On Invalid Dates every field is NaN and [monthDiff] ends in
    [NaN || 0], so the result is 0. *)
Definition diff_years (this that : t) : Z :=
  match this, that with
  | Some a, Some b => absFloor (monthDiff a b / 12)
  | _, _ => 0
  end.

End Dayjs.

(** ** [getNextBirthday] (cardDavReader.js, lines 14-28) *)

(** What [getNextBirthday] returns: [nextBirthday] is a JavaScript [Date]
    ([None]: Invalid Date); [age] is the value of the [age] property
    ([None] would be a missing or null age). *)
Record occurrence : Type := mkOccurrence {
  nextBirthday : option date;
  age : option Z
}.

(** The argument handed to [dayjs(...)] (lines 16-21). *)
Definition birthday_arg (today : date) (bdayString : string) : string :=
  if JsString.startsWith "--" bdayString then
    JsString.toString (dy today) ++ JsString.substr 2 2 bdayString
      ++ JsString.substr 4 2 bdayString
  else bdayString.

(** The loop of lines 24-26, with the number of times its body ran.
    [None]: the fuel ran out before the loop was left. *)
Fixpoint advance (fuel : nat) (today : date) (nextBirthday : Dayjs.t) (iterations : nat)
  : option (Dayjs.t * nat) :=
  if Dayjs.isBefore nextBirthday today then
    match fuel with
    | O => None
    | S fuel' => advance fuel' today (Dayjs.add_years 1 nextBirthday) (S iterations)
    end
  else Some (nextBirthday, iterations).

(** [getNextBirthday], with its result and the iterations of its loop;
    [today] is the day of [dayjs()]. *)
Definition getNextBirthday_run (fuel : nat) (today : date) (bdayString : string)
  : option (occurrence * nat) :=
  let birthdayDate := Dayjs.parse (birthday_arg today bdayString) in
  match advance fuel today birthdayDate 0 with
  | Some (nextBirthday, iterations) =>
      Some (mkOccurrence nextBirthday (Some (Dayjs.diff_years nextBirthday birthdayDate)),
            iterations)
  | None => None
  end.

Definition getNextBirthday (fuel : nat) (today : date) (bdayString : string)
  : option occurrence :=
  option_map fst (getNextBirthday_run fuel today bdayString).

(** ** [fetchContacts] (cardDavReader.js, lines 38-104) *)

Module Regex.

Import JsString.

(** Leftmost match of a pattern that is tried at every position in turn;
    [at_start] is the pattern tried at the start of a string and gives its
    capture group. *)
Fixpoint search (at_start : string -> option string) (s : string) : option string :=
  match at_start s with
  | Some g => Some g
  | None =>
      match s with
      | EmptyString => None
      | String _ s' => search at_start s'
      end
  end.

(** The longest run [.+] may take: up to the next line terminator. *)
Fixpoint take_line (s : string) : string :=
  match s with
  | EmptyString => EmptyString
  | String c s' => if is_line_terminator c then EmptyString else String c (take_line s')
  end.

(** [/FN:(.+)/] tried at the start of [s]. *)
Definition fn_at (s : string) : option string :=
  if startsWith "FN:" s then
    match take_line (drop 3 s) with
    | EmptyString => None
    | g => Some g
    end
  else None.

(** The group [(\d{8}|--\d{4}|\d{4}-\d{2}-\d{2})] tried at the start
    of [s], the alternatives in their order. *)
Definition bday_value_at (s : string) : option string :=
  if digits_at 8 s then Some (substr 0 8 s)
  else if startsWith "--" s && digits_at 4 (drop 2 s) then Some (substr 0 6 s)
  else if digits_at 4 s && startsWith "-" (drop 4 s)
          && digits_at 2 (drop 5 s) && startsWith "-" (drop 7 s)
          && digits_at 2 (drop 8 s)
  then Some (substr 0 10 s)
  else None.

(** [:] and the group, tried at the start of [s]. *)
Definition colon_value_at (s : string) : option string :=
  if startsWith ":" s then bday_value_at (drop 1 s) else None.

(** [/BDAY(?:(?:;VALUE=date)?):(...)/] tried at the start of [s]: the
    optional [;VALUE=date] is tried first, then its absence. *)
Definition bday_at (s : string) : option string :=
  if startsWith "BDAY" s then
    let rest := drop 4 s in
    match (if startsWith ";VALUE=date" rest then colon_value_at (drop 11 rest) else None) with
    | Some g => Some g
    | None => colon_value_at rest
    end
  else None.

(** [vCardString.match(fnRegex)], group 1. *)
Definition fnRegex (s : string) : option string := search fn_at s.

(** [vCardString.match(bdayRegex)], group 1. *)
Definition bdayRegex (s : string) : option string := search bday_at s.

End Regex.

(** An element of the array [fetchContacts] returns: [fullName],
    [birthday], and the two properties spread from [getNextBirthday]. *)
Record contact : Type := mkContact {
  fullName : string;
  birthday : string;
  spread : occurrence
}.

(** Lines 75-88: the string kept as [birthday]. *)
Definition birthday_of_match (bdayMatch : option string) : string :=
  match bdayMatch with
  | Some bdayString =>
      if JsString.includes "-" bdayString then bdayString
      else if JsString.startsWith "--" bdayString then
        "--" ++ JsString.substr 2 2 bdayString ++ "-" ++ JsString.substr 4 2 bdayString
      else
        JsString.substr 0 4 bdayString ++ "-" ++ JsString.substr 4 2 bdayString
          ++ "-" ++ JsString.substr 6 2 bdayString
  | None => ""
  end.

(** The body of the inner [forEach] (lines 63-96) on one directory
    object, [addressData] being [contact.data.props.addressData]; the
    result is the array [contacts] after the visit. *)
Definition visit (fuel : nat) (today : date) (contacts : list contact) (addressData : string)
  : option (list contact) :=
  if JsString.includes "BDAY" addressData then
    let vCardString := addressData in
    let fnMatch := Regex.fnRegex vCardString in
    let fullName := match fnMatch with Some g => JsString.trim g | None => "" end in
    let bdayMatch := Regex.bdayRegex vCardString in
    let birthday := birthday_of_match bdayMatch in
    match getNextBirthday fuel today birthday with
    | Some o => Some (contacts ++ [mkContact fullName birthday o])%list
    | None => None
    end
  else Some contacts.

Fixpoint forEach (fuel : nat) (today : date) (contacts : list contact) (objects : list string)
  : option (list contact) :=
  match objects with
  | [] => Some contacts
  | addressData :: rest =>
      match visit fuel today contacts addressData with
      | Some contacts' => forEach fuel today contacts' rest
      | None => None
      end
  end.

(** What [client.createAccount] settles to: a rejection, or the address
    books, each the list of the [addressData] of its objects. *)
Inductive account : Type :=
| Rejected
| Resolved (addressBooks : list (list string)).

(** [fetchContacts]: a rejection is caught (lines 100-103) and the empty
    array is returned. *)
Definition fetchContacts (fuel : nat) (today : date) (a : account) : option (list contact) :=
  match a with
  | Rejected => Some []
  | Resolved addressBooks => forEach fuel today [] (List.concat addressBooks)
  end.

(** ** [getICSString] (cardDavReader.js, lines 115-139) *)

(** A number that may be [NaN] ([None]), as the getters of an Invalid Date
    give. *)
Definition jsnumber : Type := option Z.

Record alarmAttributes : Type := mkAlarm {
  action : string;
  trigger : option (date * Z * Z)   (* day, hour, minute; [None]: Invalid Date *)
}.

(** The object built for one contact and handed to [ics.createEvents]. *)
Record eventAttributes : Type := mkEvent {
  title : string;
  description : string;
  start : list jsnumber;
  end_ : list jsnumber;
  startInputType : string;
  status : string;
  alarms : list alarmAttributes;
  calName : string
}.

(** The wrapped-gift sign that opens title and description, as its four
    UTF-8 bytes. *)
Definition gift : string :=
  String (ascii_of_nat 240) (String (ascii_of_nat 159)
    (String (ascii_of_nat 142) (String (ascii_of_nat 129) EmptyString))).

(** [`${contact.age}`].  [getNextBirthday] always gives a number; an age
    that is not there ([None]) would print as [undefined]. *)
Definition age_text (a : option Z) : string :=
  match a with
  | Some n => JsString.toString n
  | None => "undefined"
  end.

(** [[d.getFullYear(), d.getMonth() + 1, d.getDate()]] *)
Definition date_array (d : option date) : list jsnumber :=
  match d with
  | Some x => [Some (dy x); Some (dM x + 1); Some (dD x)]
  | None => [None; None; None]
  end.

Definition event_of (c : contact) : eventAttributes :=
  let o := spread c in
  {| title := gift ++ " " ++ fullName c ++ " (wird " ++ age_text (age o) ++ " Jahre)";
     description :=
       gift ++ " Geburtstag von " ++ fullName c ++ " (wird " ++ age_text (age o) ++ " Jahre)";
     start := date_array (nextBirthday o);
     end_ := date_array (option_map Dayjs.add_day (nextBirthday o));
     startInputType := "utc";
     status := "CONFIRMED";
     alarms := [ {| action := "display";
                    trigger := option_map (fun d => (d, 8, 0)) (nextBirthday o) |} ];
     calName := "Geburtstage" |}.

(** ** The serialiser, the cache and the route (server.js) *)

Section Server.

(** The object [{ error, value }] that [ics.createEvents] returns. *)
Variable icsResult : Type.

(** What the serialiser reads besides its argument (the clock, its
    identifier generator). *)
Variable ambient : Type.

(** [ics.createEvents]: it returns its object and throws nothing. *)
Variable ics_createEvents : ambient -> list eventAttributes -> icsResult.

Definition getICSString (env : ambient) (contacts : list contact) : icsResult :=
  ics_createEvents env (List.map event_of contacts).

(** [localCache] under [CACHE_KEY]; expiry is not modelled. *)
Definition cache : Type := option icsResult.

(** [updateCache] (server.js, lines 16-25): the promise of
    [fetchContacts] always fulfils, so the [then] branch runs and sets
    the cache entry. *)
Definition updateCache (fuel : nat) (today : date) (env : ambient) (a : account)
    (localCache : cache) : option cache :=
  match fetchContacts fuel today a with
  | Some contacts =>
      let calendarString := getICSString env contacts in
      Some (Some calendarString)
  | None => None
  end.

Inductive response : Type :=
| Status200 (contentType : string) (body : icsResult)
| Status404 (body : string).

(** The handler of [GET /calendar.ics] (server.js, lines 41-49). *)
Definition get_calendar (localCache : cache) : response :=
  match localCache with
  | Some icalString => Status200 "text/calendar; charset=utf-8" icalString
  | None => Status404 "Calendar not found"
  end.

End Server.

(** The line feed between the lines of a directory object. *)
Definition LF : string := String (ascii_of_nat 10) EmptyString.

(** ** Notions the properties are stated with *)

(** 29 February. *)
Definition feb29 (d : date) : bool := (dM d =? 1) && (dD d =? 29).

(** Same month and day of month. *)
Definition same_month_day (a b : date) : Prop := dM a = dM b /\ dD a = dD b.

(** [r] is the earliest day on or after [today] with the month and day of
    [bd]. *)
Definition earliest_match (bd today r : date) : Prop :=
  date_leb today r = true
  /\ same_month_day r bd
  /\ forall d', date_leb today d' = true -> same_month_day d' bd -> date_leb r d' = true.

(** The year of the first day with month [m] and day [d] that is not
    before [today]. *)
Definition target_year (today : date) (m d : Z) : Z :=
  if date_ltb (mkDate (dy today) m d) today then dy today + 1 else dy today.

(** The year of the occurrence: the target year, or the birth year when
    that lies after it. *)
Definition occurrence_year (today bd : date) : Z :=
  Z.max (dy bd) (target_year today (dM bd) (dD bd)).

(** Strings of two and of four characters. *)
Definition two (a b : ascii) : string := String a (String b EmptyString).

Definition four (a b c d : ascii) : string :=
  String a (String b (String c (String d EmptyString))).

(** [YYYY-MM-DD] *)
Definition iso (y1 y2 y3 y4 m1 m2 d1 d2 : ascii) : string :=
  four y1 y2 y3 y4 ++ "-" ++ two m1 m2 ++ "-" ++ two d1 d2.

(** [--MMDD] *)
Definition yearless (m1 m2 d1 d2 : ascii) : string := "--" ++ two m1 m2 ++ two d1 d2.

(** [y] prints as four digits that read as [y] again. *)
Definition four_digit_year (y : Z) : bool :=
  let s := JsString.toString y in
  (String.length s =? 4)%nat && JsString.all_digits s && (JsString.number s =? y).

(** What the source makes of the match of [bdayRegex]: the date
    [birthdayDate] of [getNextBirthday]. *)
Definition birthdayDate_of_match (today : date) (bdayMatch : option string) : Dayjs.t :=
  Dayjs.parse (birthday_arg today (birthday_of_match bdayMatch)).

(** [v] is, from end to end, of one of the three shapes of the group of
    [bdayRegex]. *)
Definition accepted_shape (v : string) : bool :=
  match Regex.bday_value_at v with
  | Some g => String.eqb g v
  | None => false
  end.

(** The three shapes, character by character. *)
Inductive shape : string -> Prop :=
| shape_compact y1 y2 y3 y4 m1 m2 d1 d2 :
    JsString.all_digits (four y1 y2 y3 y4 ++ two m1 m2 ++ two d1 d2) = true ->
    shape (four y1 y2 y3 y4 ++ two m1 m2 ++ two d1 d2)
| shape_yearless m1 m2 d1 d2 :
    JsString.all_digits (two m1 m2 ++ two d1 d2) = true ->
    shape (yearless m1 m2 d1 d2)
| shape_iso y1 y2 y3 y4 m1 m2 d1 d2 :
    JsString.all_digits (four y1 y2 y3 y4 ++ two m1 m2 ++ two d1 d2) = true ->
    shape (iso y1 y2 y3 y4 m1 m2 d1 d2).

Ltac split_digits H :=
  cbn [four two append JsString.all_digits] in H;
  rewrite !andb_true_iff in H;
  repeat match type of H with
         | _ /\ _ => let D := fresh "D" in destruct H as [D H]
         end.

(** A directory object with a name and a birthday line. *)
Definition vcard (fn bday : string) : string :=
  "BEGIN:VCARD" ++ LF ++ "VERSION:3.0" ++ LF ++ "FN:" ++ fn ++ LF
    ++ "BDAY:" ++ bday ++ LF ++ "END:VCARD".

(** A directory object without a birthday line. *)
Definition vcard_without_bday (fn : string) : string :=
  "BEGIN:VCARD" ++ LF ++ "VERSION:3.0" ++ LF ++ "FN:" ++ fn ++ LF ++ "END:VCARD".

(** Fuel that is enough for [getNextBirthday] on [bdayString]. *)
Definition enough_fuel (today : date) (bdayString : string) : nat :=
  match Dayjs.parse (birthday_arg today bdayString) with
  | Some bd => Z.to_nat (dy today + 1 - dy bd)
  | None => O
  end.

(** The strings [fetchContacts] keeps as [birthday]. *)
Inductive stored_birthday : string -> Prop :=
| stored_empty : stored_birthday ""
| stored_iso y1 y2 y3 y4 m1 m2 d1 d2 :
    JsString.all_digits (four y1 y2 y3 y4 ++ two m1 m2 ++ two d1 d2) = true ->
    stored_birthday (iso y1 y2 y3 y4 m1 m2 d1 d2)
| stored_yearless m1 m2 d1 d2 :
    JsString.all_digits (two m1 m2 ++ two d1 d2) = true ->
    stored_birthday (yearless m1 m2 d1 d2).

(** The name read from a record (lines 70-71). *)
Definition fullName_of (data : string) : string :=
  match Regex.fnRegex data with
  | Some g => JsString.trim g
  | None => ""
  end.

(** The birthday string read from a record (lines 74-88). *)
Definition birthday_in (data : string) : string :=
  birthday_of_match (Regex.bdayRegex data).

(** The records that pass the test of line 64. *)
Definition with_bday (objects : list string) : list string :=
  List.filter (JsString.includes "BDAY") objects.

(** Fuel that is enough for every record of a directory. *)
Definition fuel_for (today : date) (objects : list string) : nat :=
  list_max (List.map (fun data => enough_fuel today (birthday_in data)) objects).

(** What holds of a returned contact: its birthday string is empty or of
    a stored shape; its date is an Invalid Date exactly when that string
    does not parse, and is otherwise on or after [today]. *)
Definition contact_sound (today : date) (c : contact) : Prop :=
  stored_birthday (birthday c)
  /\ (forall r, nextBirthday (spread c) = Some r -> date_leb today r = true)
  /\ (nextBirthday (spread c) = None
      <-> Dayjs.parse (birthday_arg today (birthday c)) = None).

(** [s] has no line terminator. *)
Fixpoint no_line_break (s : string) : bool :=
  match s with
  | EmptyString => true
  | String c s' => negb (JsString.is_line_terminator c) && no_line_break s'
  end.

(** [s] is empty or starts with a line terminator. *)
Definition at_line_end (s : string) : bool :=
  match s with
  | EmptyString => true
  | String c _ => JsString.is_line_terminator c
  end.

Definition starts_with_space (s : string) : bool :=
  match s with
  | EmptyString => false
  | String c _ => JsString.is_space c
  end.

Fixpoint ends_with_space (s : string) : bool :=
  match s with
  | EmptyString => false
  | String c EmptyString => JsString.is_space c
  | String _ s' => ends_with_space s'
  end.

(** ** The cache with its time to live (server.js, lines 13-19 and 41-49) *)

Section TimedServer.

Variable icsResult : Type.
Variable ambient : Type.
Variable ics_createEvents : ambient -> list eventAttributes -> icsResult.

(** [stdTTL: 60 * 60 * 24], in seconds. *)
Definition stdTTL : Z := 60 * 60 * 24.

(** What node-cache keeps under a key: the value (its [v]) and the time in
    milliseconds after which it is expired (its [t]). *)
Record entry : Type := mkEntry { value : icsResult; livetime : Z }.

(** [localCache] under [CACHE_KEY]. *)
Definition timed_cache : Type := option entry.

(** [localCache.set(CACHE_KEY, value)] at the time [now]: the entry lives
    for [stdTTL] seconds. *)
Definition cache_set (now : Z) (value : icsResult) : timed_cache :=
  Some (mkEntry value (now + stdTTL * 1000)).

(** [localCache.get(CACHE_KEY)] at the time [now]: an entry whose time
    is not 0 and lies before [now] is deleted and not returned. *)
Definition cache_get (now : Z) (c : timed_cache) : option icsResult * timed_cache :=
  match c with
  | Some e =>
      if negb (livetime e =? 0) && (livetime e <? now) then (None, None)
      else (Some (value e), c)
  | None => (None, None)
  end.

(** The [then] branch of [updateCache], run at the time [now]. *)
Definition updateCache_at (now : Z) (fuel : nat) (today : date) (env : ambient)
    (a : account) (localCache : timed_cache) : option timed_cache :=
  match fetchContacts fuel today a with
  | Some contacts =>
      let calendarString := getICSString icsResult ambient ics_createEvents env contacts in
      Some (cache_set now calendarString)
  | None => None
  end.

(** The handler of [GET /calendar.ics], run at the time [now]. *)
Definition get_calendar_at (now : Z) (localCache : timed_cache)
  : response icsResult * timed_cache :=
  let '(icalString, localCache') := cache_get now localCache in
  (match icalString with
   | Some s => Status200 icsResult "text/calendar; charset=utf-8" s
   | None => Status404 icsResult "Calendar not found"
   end, localCache').

End TimedServer.

(** ** The dayjs operations in the time zone of the process *)

(** dayjs takes the length of a month from the local end of the month
    ([daysInMonth()] is [endOf('month').$D]).  Where the last minute of a
    month does not exist in the zone of the process, that end falls into
    the next month and the length comes out as 1: in Europe/Berlin the
    clocks went from 23:00 to 24:00 on 30 April 1916.  [Dayjs] above takes
    every month at its calendar length; here the length is what the zone
    gives, [dim y m] for month index [m] of year [y], and everything that
    clamps a day goes through it.  The days themselves are those of the
    calendar: a zone that left out a whole day (Pacific/Apia had no
    30 December 2011) is not described. *)
Module Zoned.

(** [$set] of a month or a year in the zone. *)
Definition clamp_day (dim : Z -> Z -> Z) (y m d : Z) : date :=
  mkDate y m (Z.min d (dim y m)).

(** [add(n, 'year')] *)
Definition add_years (dim : Z -> Z -> Z) (n : Z) (this : Dayjs.t) : Dayjs.t :=
  match this with
  | Some a => Some (clamp_day dim (dy a + n) (dM a) (dD a))
  | None => None
  end.

(** [add(n, 'month')] on a valid date. *)
Definition add_months (dim : Z -> Z -> Z) (a : date) (n : Z) : date :=
  let '(y, m) := carry_month (dy a) (dM a + n) in clamp_day dim y m (dD a).

(** [Utils.m] after its first line. *)
Definition monthDiff_anchored (dim : Z -> Z -> Z) (a b : date) : Q :=
  let wholeMonthDiff := (dy b - dy a) * 12 + (dM b - dM a) in
  let anchor := add_months dim a wholeMonthDiff in
  let c := valueOf b - valueOf anchor <? 0 in
  let anchor2 := add_months dim a (wholeMonthDiff + (if c then -1 else 1)) in
  (- (inject_Z wholeMonthDiff
      + inject_Z (valueOf b - valueOf anchor)
        / inject_Z (if c then valueOf anchor - valueOf anchor2
                    else valueOf anchor2 - valueOf anchor)))%Q.

Definition monthDiff (dim : Z -> Z -> Z) (a b : date) : Q :=
  if dD a <? dD b then (- monthDiff_anchored dim b a)%Q else monthDiff_anchored dim a b.

(** [this.diff(that, 'years')] *)
Definition diff_years (dim : Z -> Z -> Z) (this that : Dayjs.t) : Z :=
  match this, that with
  | Some a, Some b => Dayjs.absFloor (monthDiff dim a b / 12)
  | _, _ => 0
  end.

(** The loop of lines 24-26. *)
Fixpoint advance (dim : Z -> Z -> Z) (fuel : nat) (today : date) (nextBirthday : Dayjs.t)
    (iterations : nat) : option (Dayjs.t * nat) :=
  if Dayjs.isBefore nextBirthday today then
    match fuel with
    | O => None
    | S fuel' =>
        advance dim fuel' today (add_years dim 1 nextBirthday) (S iterations)
    end
  else Some (nextBirthday, iterations).

(** [getNextBirthday] in the zone, with the iterations of its loop. *)
Definition getNextBirthday_run (dim : Z -> Z -> Z) (fuel : nat) (today : date)
    (bdayString : string) : option (occurrence * nat) :=
  let birthdayDate := Dayjs.parse (birthday_arg today bdayString) in
  match advance dim fuel today birthdayDate 0 with
  | Some (nextBirthday, iterations) =>
      Some (mkOccurrence nextBirthday
              (Some (diff_years dim nextBirthday birthdayDate)),
            iterations)
  | None => None
  end.

Definition getNextBirthday (dim : Z -> Z -> Z) (fuel : nat) (today : date)
    (bdayString : string) : option occurrence :=
  option_map fst (getNextBirthday_run dim fuel today bdayString).

(** A zone that is as Europe/Berlin in April 1916 and gives every other
    month its calendar length. *)
Definition short_april_1916 (y m : Z) : Z :=
  if (y =? 1916) && (m =? 3) then 1 else daysInMonth y m.

End Zoned.

(** In the zone, the months [m] of the years from [y1] to [y2] have their
    calendar length. *)
Definition months_as_calendar (dim : Z -> Z -> Z) (m y1 y2 : Z) : Prop :=
  forall y, y1 <= y <= y2 -> dim y m = daysInMonth y m.

(** ** What the claims about normalisation and names speak of *)

(** The year [new Date] makes of a year argument. *)
Definition century (y : Z) : Z := if (0 <=? y) && (y <=? 99) then 1900 + y else y.

(** The year, month and day that a value of one of the three shapes
    names; a value without a year names the year of [today]. *)
Definition fields_of (today : date) (v : string) : Z * Z * Z :=
  if JsString.startsWith "--" v then
    (dy today, JsString.number (JsString.substr 2 2 v), JsString.number (JsString.substr 4 2 v))
  else if JsString.includes "-" v then
    (JsString.number (JsString.substr 0 4 v), JsString.number (JsString.substr 5 2 v),
     JsString.number (JsString.substr 8 2 v))
  else
    (JsString.number (JsString.substr 0 4 v), JsString.number (JsString.substr 4 2 v),
     JsString.number (JsString.substr 6 2 v)).

(** [r] is the date of the calendar that lies [d - 1] days after the
    first day of the month reached from January of the year by [m - 1]
    months, forwards or backwards. *)
Definition carried (y m d : Z) (r : date) : Prop :=
  valid_date r
  /\ dayNumber r
     = dayNumber (mkDate (century y + (m - 1) / 12) ((m - 1) mod 12) 1) + (d - 1).

(** Text of ASCII characters only. *)
Fixpoint ascii_text (s : string) : bool :=
  match s with
  | EmptyString => true
  | String c s' => (nat_of_ascii c <? 128)%nat && ascii_text s'
  end.

(** White space only. *)
Fixpoint all_space (s : string) : bool :=
  match s with
  | EmptyString => true
  | String c s' => JsString.is_space c && all_space s'
  end.

(** [data] has [FN:] at position [length pre], with [g] the rest of the
    line after it and [post] what follows the line. *)
Definition FN_line_at (data pre g post : string) : Prop :=
  data = pre ++ "FN:" ++ g ++ post /\ no_line_break g = true /\ at_line_end post = true.

(** [t] is [g] without the white space at its two ends. *)
Definition trimmed (g t : string) : Prop :=
  (exists ws1 ws2, g = ws1 ++ t ++ ws2 /\ all_space ws1 = true /\ all_space ws2 = true)
  /\ starts_with_space t = false /\ ends_with_space t = false.

(** ** Calendar lemmas *)

Lemma daysInMonth_bounds (y m : Z) : 28 <= daysInMonth y m <= 31.
Proof.
  unfold daysInMonth.
  destruct (m =? 1); [destruct (is_leap y); lia|].
  destruct ((m =? 3) || (m =? 5) || (m =? 8) || (m =? 10)); lia.
Qed.

Lemma daysInMonth_not_feb (y y' m : Z) : m <> 1 -> daysInMonth y m = daysInMonth y' m.
Proof.
  intros Hm. unfold daysInMonth.
  destruct (Z.eqb_spec m 1); [contradiction | reflexivity].
Qed.

(** A valid day other than 29 February exists in every year. *)
Lemma fits_every_year (bd : date) :
  valid_date bd -> feb29 bd = false -> forall y, dD bd <= daysInMonth y (dM bd).
Proof.
  intros [_ [_ Hd]] Hf y. unfold feb29 in Hf.
  destruct (Z.eqb_spec (dM bd) 1) as [E|E].
  - simpl in Hf. apply Z.eqb_neq in Hf.
    rewrite E in *. unfold daysInMonth in *. simpl in *.
    destruct (is_leap (dy bd)), (is_leap y); lia.
  - rewrite (daysInMonth_not_feb y (dy bd)) by assumption. exact Hd.
Qed.

Lemma leap_next_not_leap (y : Z) : is_leap y = true -> is_leap (y + 1) = false.
Proof.
  unfold is_leap. intros H.
  apply andb_true_iff in H. destruct H as [H _]. apply Z.eqb_eq in H.
  apply andb_false_iff. left. apply Z.eqb_neq.
  intro H1. apply Z.mod_divide in H; [|lia]. apply Z.mod_divide in H1; [|lia].
  destruct H as [a Ha], H1 as [b Hb]. lia.
Qed.

Lemma date_ltb_irrefl_year (today : date) (y m d : Z) :
  dy today < y -> date_ltb (mkDate y m d) today = false.
Proof.
  intros H. unfold date_ltb. simpl.
  destruct (Z.ltb_spec y (dy today)); [lia|].
  destruct (Z.eqb_spec y (dy today)); [lia|]. reflexivity.
Qed.

Lemma date_ltb_earlier_year (today : date) (y m d : Z) :
  y < dy today -> date_ltb (mkDate y m d) today = true.
Proof.
  intros H. unfold date_ltb. simpl.
  destruct (Z.ltb_spec y (dy today)); [reflexivity | lia].
Qed.

Lemma target_year_reached (today : date) (m d : Z) :
  date_ltb (mkDate (target_year today m d) m d) today = false.
Proof.
  unfold target_year.
  destruct (date_ltb (mkDate (dy today) m d) today) eqn:E.
  - apply date_ltb_irrefl_year. lia.
  - exact E.
Qed.

Lemma target_year_first (today : date) (m d y : Z) :
  y < target_year today m d -> date_ltb (mkDate y m d) today = true.
Proof.
  unfold target_year.
  destruct (date_ltb (mkDate (dy today) m d) today) eqn:E; intros H.
  - destruct (Z.eq_dec y (dy today)) as [->|N]; [exact E|].
    apply date_ltb_earlier_year. lia.
  - apply date_ltb_earlier_year. lia.
Qed.

(** ** The loop *)

(** From a day that exists in every year, the loop walks year by year up
    to the target year and stops there. *)
Lemma advance_steady (today : date) (m d : Z) :
  (forall y, d <= daysInMonth y m) ->
  forall (k fuel : nat) (y : Z) (it : nat),
    target_year today m d = y + Z.of_nat k ->
    (k <= fuel)%nat ->
    advance fuel today (Some (mkDate y m d)) it
    = Some (Some (mkDate (target_year today m d) m d), (it + k)%nat).
Proof.
  intros Hfit. induction k as [|k IH]; intros fuel y it HY Hfuel.
  - replace y with (target_year today m d) by lia.
    destruct fuel; simpl; rewrite target_year_reached;
      rewrite Nat.add_0_r; reflexivity.
  - destruct fuel as [|fuel]; [lia|].
    rewrite Nat2Z.inj_succ in HY.
    cbn [advance Dayjs.isBefore Dayjs.add_years dy dM dD].
    rewrite (target_year_first today m d y) by lia.
    unfold Dayjs.clamp_day. rewrite Z.min_l by apply Hfit.
    rewrite (IH fuel (y + 1) (S it)) by lia.
    rewrite Nat.add_succ_r. reflexivity.
Qed.

(** A date that is not before [today] is returned as it is. *)
Lemma advance_stop (fuel : nat) (today : date) (nb : Dayjs.t) (it : nat) :
  Dayjs.isBefore nb today = false -> advance fuel today nb it = Some (nb, it).
Proof.
  intros H. destruct fuel; simpl; rewrite H; reflexivity.
Qed.

(** ** The age *)

Lemma absFloor_inject_Z (q : Q) (z : Z) : (q == inject_Z z)%Q -> Dayjs.absFloor q = z.
Proof.
  intros H. unfold Dayjs.absFloor.
  destruct (negb (Qle_bool 0 q)).
  - rewrite (Qceiling_comp _ _ H). apply Qceiling_Z.
  - rewrite (Qfloor_comp _ _ H). apply Qfloor_Z.
Qed.

Lemma add_months_whole_years (Y y m d : Z) :
  0 <= m <= 11 ->
  Dayjs.add_months (mkDate Y m d) ((y - Y) * 12 + (m - m)) = Dayjs.clamp_day y m d.
Proof.
  intros Hm. unfold Dayjs.add_months, carry_month. cbn [dy dM dD].
  replace (Y + (m + ((y - Y) * 12 + (m - m))) / 12) with y
    by (Z.div_mod_to_equations; lia).
  replace ((m + ((y - Y) * 12 + (m - m))) mod 12) with m
    by (Z.div_mod_to_equations; lia).
  reflexivity.
Qed.

Lemma whole_years_quotient (n den : Z) :
  (- (inject_Z (- n * 12) + inject_Z 0 / inject_Z den) / 12 == inject_Z n)%Q.
Proof.
  setoid_replace (inject_Z 0 / inject_Z den)%Q with 0%Q
    by (unfold Qdiv; change (inject_Z 0) with 0%Q; ring).
  rewrite inject_Z_mult, inject_Z_opp.
  change (inject_Z 12) with 12%Q. field.
Qed.

(** Between two dates with the same month and day, [diff] in years is the
    difference of the years. *)
Lemma diff_years_same_day (Y y m d : Z) :
  0 <= m <= 11 -> d <= daysInMonth y m ->
  Dayjs.diff_years (Some (mkDate Y m d)) (Some (mkDate y m d)) = Y - y.
Proof.
  intros Hm Hd. unfold Dayjs.diff_years, Dayjs.monthDiff.
  cbn [dD]. rewrite Z.ltb_irrefl.
  unfold Dayjs.monthDiff_anchored. cbn [dy dM].
  rewrite add_months_whole_years by assumption.
  unfold Dayjs.clamp_day. rewrite Z.min_l by assumption.
  rewrite !Z.sub_diag. change (0 <? 0) with false. cbv iota.
  apply absFloor_inject_Z.
  replace ((y - Y) * 12 + 0) with (- (Y - y) * 12) by lia.
  apply whole_years_quotient.
Qed.

Lemma target_year_gt (today : date) (y m d : Z) :
  date_ltb (mkDate y m d) today = true -> y < target_year today m d.
Proof.
  intros H.
  destruct (Z.lt_ge_cases y (target_year today m d)) as [L|G]; [exact L|].
  exfalso. unfold target_year in G.
  destruct (date_ltb (mkDate (dy today) m d) today) eqn:E.
  - rewrite date_ltb_irrefl_year in H by lia. discriminate.
  - destruct (Z.eq_dec y (dy today)) as [->|N]; [congruence|].
    rewrite date_ltb_irrefl_year in H by lia. discriminate.
Qed.

Lemma date_ltb_same_day_years (y y' m d : Z) :
  y <= y' -> date_ltb (mkDate y' m d) (mkDate y m d) = false.
Proof.
  intros H. unfold date_ltb. cbn [dy dM dD].
  rewrite !Z.ltb_irrefl.
  destruct (Z.ltb_spec y' y); [lia|].
  rewrite andb_false_r. cbn. apply andb_false_r.
Qed.

(** ** [getNextBirthday] on a birthday other than 29 February *)

Lemma getNextBirthday_run_steady (today : date) (s : string) (bd : date) :
  Dayjs.parse (birthday_arg today s) = Some bd ->
  valid_date bd -> feb29 bd = false ->
  forall fuel, (Z.to_nat (occurrence_year today bd - dy bd) <= fuel)%nat ->
    getNextBirthday_run fuel today s
    = Some (mkOccurrence (Some (mkDate (occurrence_year today bd) (dM bd) (dD bd)))
                         (Some (occurrence_year today bd - dy bd)),
            Z.to_nat (occurrence_year today bd - dy bd)).
Proof.
  intros Hp Hv Hf fuel Hfuel.
  pose proof (fits_every_year bd Hv Hf) as Hfit.
  destruct Hv as [Hm Hd].
  unfold getNextBirthday_run. rewrite Hp.
  destruct bd as [y m d]. unfold occurrence_year in *. cbn [dy dM dD] in *.
  destruct (Z.le_gt_cases y (target_year today m d)) as [L|G].
  - rewrite Z.max_r in * by exact L.
    rewrite (advance_steady today m d Hfit
               (Z.to_nat (target_year today m d - y)) fuel y 0%nat) by lia.
    rewrite diff_years_same_day by (try apply Hfit; lia).
    reflexivity.
  - rewrite Z.max_l in * by lia.
    rewrite advance_stop.
    + rewrite diff_years_same_day by (try apply Hfit; lia).
      rewrite Z.sub_diag. reflexivity.
    + cbn [Dayjs.isBefore].
      destruct (date_ltb (mkDate y m d) today) eqn:E; [|reflexivity].
      apply target_year_gt in E. lia.
Qed.

(** ** [getNextBirthday] on 29 February *)

Lemma feb29_shape (bd : date) :
  valid_date bd -> feb29 bd = true ->
  bd = mkDate (dy bd) 1 29 /\ is_leap (dy bd) = true.
Proof.
  intros [_ [_ Hd]] Hf. unfold feb29 in Hf.
  apply andb_true_iff in Hf. destruct Hf as [Hm Hd']. 
  apply Z.eqb_eq in Hm. apply Z.eqb_eq in Hd'.
  destruct bd as [y m d]. cbn [dy dM dD] in *. subst m d.
  split; [reflexivity|].
  unfold daysInMonth in Hd. cbn in Hd.
  destruct (is_leap y); [reflexivity | lia].
Qed.

Lemma date_ltb_day_before (today : date) (y m d d' : Z) :
  d' <= d -> date_ltb (mkDate y m d) today = true -> date_ltb (mkDate y m d') today = true.
Proof.
  unfold date_ltb. cbn [dy dM dD]. intros Hd H.
  destruct (Z.ltb_spec y (dy today)); [reflexivity|].
  destruct (Z.eqb_spec y (dy today)); [|discriminate]. cbn in *.
  destruct (Z.ltb_spec m (dM today)); [reflexivity|].
  destruct (Z.eqb_spec m (dM today)); [|discriminate]. cbn in *.
  apply Z.ltb_lt in H. apply Z.ltb_lt. lia.
Qed.

(** Once 29 February has passed, the first added year clamps the day to
    28, and the loop stops on 28 February of the target year. *)
Lemma advance_feb29 (today : date) (y : Z) :
  is_leap y = true ->
  date_ltb (mkDate y 1 29) today = true ->
  y < target_year today 1 28
  /\ forall fuel, (Z.to_nat (target_year today 1 28 - y) <= fuel)%nat ->
       advance fuel today (Some (mkDate y 1 29)) 0
       = Some (Some (mkDate (target_year today 1 28) 1 28),
               Z.to_nat (target_year today 1 28 - y)).
Proof.
  intros Hl Hb.
  assert (Hlt : y < target_year today 1 28).
  { apply target_year_gt. apply (date_ltb_day_before today y 1 29 28); [lia | exact Hb]. }
  split; [exact Hlt|]. intros fuel Hfuel.
  destruct fuel as [|fuel]; [lia|].
  cbn [advance Dayjs.isBefore Dayjs.add_years dy dM dD]. rewrite Hb.
  unfold Dayjs.clamp_day.
  replace (daysInMonth (y + 1) 1) with 28
    by (unfold daysInMonth; cbn; rewrite (leap_next_not_leap y Hl); reflexivity).
  change (Z.min 29 28) with 28.
  rewrite (advance_steady today 1 28 (fun y0 => proj1 (daysInMonth_bounds y0 1))
             (Z.to_nat (target_year today 1 28 - (y + 1))) fuel (y + 1) 1%nat) by lia.
  do 2 f_equal. lia.
Qed.

Lemma target_year_ge (today : date) (m d : Z) : dy today <= target_year today m d.
Proof.
  unfold target_year. destruct (date_ltb (mkDate (dy today) m d) today); lia.
Qed.

Lemma occurrence_not_before (today bd : date) :
  date_ltb (mkDate (occurrence_year today bd) (dM bd) (dD bd)) today = false.
Proof.
  unfold occurrence_year.
  destruct (Z.max_spec (dy bd) (target_year today (dM bd) (dD bd))) as [[L ->]|[G ->]].
  - apply target_year_reached.
  - destruct (date_ltb (mkDate (dy bd) (dM bd) (dD bd)) today) eqn:E; [|reflexivity].
    apply target_year_gt in E. lia.
Qed.

Lemma target_is_earliest (today bd : date) :
  dy bd <= dy today ->
  earliest_match bd today (mkDate (occurrence_year today bd) (dM bd) (dD bd)).
Proof.
  intros Hy.
  assert (E : occurrence_year today bd = target_year today (dM bd) (dD bd)).
  { unfold occurrence_year. pose proof (target_year_ge today (dM bd) (dD bd)). lia. }
  unfold earliest_match, date_leb. repeat split.
  - rewrite occurrence_not_before. reflexivity.
  - intros [y' m' d'] Hle [Hm Hd]. cbn [dM dD] in Hm, Hd. subst m' d'.
    apply negb_true_iff in Hle. apply negb_true_iff.
    rewrite E. apply date_ltb_same_day_years.
    destruct (Z.le_gt_cases (target_year today (dM bd) (dD bd)) y') as [L|G]; [exact L|].
    rewrite (target_year_first today (dM bd) (dD bd) y' G) in Hle. discriminate.
Qed.

(** ** The properties of the occurrence calculation *)

(** On 29 February the day is lost: with [today] 10 February 2024 the
    birthday 1992-02-29 gives 28 February 2024, which has not the day of
    the birthday, while 29 February 2024 lies ahead. *)
Lemma getNextBirthday_feb29_not_earliest :
  getNextBirthday 40 (mkDate 2024 1 10) "1992-02-29"
  = Some (mkOccurrence (Some (mkDate 2024 1 28)) (Some 31))
  /\ valid_date (mkDate 1992 1 29)
  /\ ~ earliest_match (mkDate 1992 1 29) (mkDate 2024 1 10) (mkDate 2024 1 28).
Proof.
  split; [vm_compute; reflexivity|]. split.
  - unfold valid_date. cbn. lia.
  - intros [_ [[_ Hd] _]]. cbn in Hd. discriminate.
Qed.

(** C6, on the code: with [today] 10 February 2024 the birthday
    1992-02-29, of a person who turns 32 in 2024, gives the occurrence
    28 February 2024 and the age 31, while the years differ by 32. *)
Lemma age_feb29_leap_target :
  exists r a,
    getNextBirthday 40 (mkDate 2024 1 10) "1992-02-29"
    = Some (mkOccurrence (Some r) (Some a))
    /\ Dayjs.parse "1992-02-29" = Some (mkDate 1992 1 29)
    /\ a <> dy r - 1992.
Proof.
  exists (mkDate 2024 1 28), 31. split; [vm_compute; reflexivity|].
  split; [reflexivity|]. cbn. lia.
Qed.

(** Added years, one at a time. *)
Lemma add_years_feb29 (y : Z) (k : nat) :
  is_leap y = true ->
  Nat.iter (S k) (Dayjs.add_years 1) (Some (mkDate y 1 29))
  = Some (mkDate (y + Z.of_nat (S k)) 1 28).
Proof.
  intros Hl. induction k as [|k IH].
  - cbn [Nat.iter nat_rect Dayjs.add_years dy dM dD]. unfold Dayjs.clamp_day.
    replace (daysInMonth (y + 1) 1) with 28
      by (unfold daysInMonth; cbn; rewrite (leap_next_not_leap y Hl); reflexivity).
    reflexivity.
  - change (Nat.iter (S (S k)) (Dayjs.add_years 1) (Some (mkDate y 1 29)))
      with (Dayjs.add_years 1 (Nat.iter (S k) (Dayjs.add_years 1) (Some (mkDate y 1 29)))).
    rewrite IH. cbn [Dayjs.add_years dy dM dD]. unfold Dayjs.clamp_day.
    rewrite Z.min_l by apply daysInMonth_bounds.
    f_equal. f_equal. lia.
Qed.

(** C10.  A birthday on 29 February with a known birth year: each added
    year after the first keeps 28 February, and [getNextBirthday] returns
    the birth date itself while it has not passed, and otherwise
    28 February of a later year, leap or not. *)
Theorem feb29_stays_feb28 (today : date) (s : string) (y : Z) :
  JsString.startsWith "--" s = false ->
  Dayjs.parse s = Some (mkDate y 1 29) ->
  is_leap y = true ->
  (forall k : nat,
     Nat.iter (S k) (Dayjs.add_years 1) (Some (mkDate y 1 29))
     = Some (mkDate (y + Z.of_nat (S k)) 1 28))
  /\ exists (r : date) (n : nat),
       (forall fuel, (n <= fuel)%nat ->
          exists a, getNextBirthday fuel today s = Some (mkOccurrence (Some r) a))
       /\ (date_ltb (mkDate y 1 29) today = false -> r = mkDate y 1 29)
       /\ (date_ltb (mkDate y 1 29) today = true ->
           y < dy r /\ dM r = 1 /\ dD r = 28 /\ date_leb today r = true).
Proof.
  intros Hs Hp Hl. split; [intros k; apply add_years_feb29; exact Hl|].
  assert (Harg : birthday_arg today s = s) by (unfold birthday_arg; rewrite Hs; reflexivity).
  destruct (date_ltb (mkDate y 1 29) today) eqn:Hb.
  - destruct (advance_feb29 today y Hl Hb) as [Hlt Hrun].
    exists (mkDate (target_year today 1 28) 1 28), (Z.to_nat (target_year today 1 28 - y)).
    split; [|split].
    + intros fuel Hfuel. unfold getNextBirthday, getNextBirthday_run.
      rewrite Harg, Hp, (Hrun fuel Hfuel). cbn. eexists. reflexivity.
    + discriminate.
    + intros _. cbn [dy dM dD]. repeat split; try assumption.
      unfold date_leb. rewrite target_year_reached. reflexivity.
  - exists (mkDate y 1 29), 0%nat. split; [|split].
    + intros fuel _. unfold getNextBirthday, getNextBirthday_run.
      rewrite Harg, Hp, advance_stop by exact Hb. cbn. eexists. reflexivity.
    + reflexivity.
    + discriminate.
Qed.

(** The theorem at the birthday 1992-02-29 with [today] 10 February 2024,
    in a leap year. *)
Lemma feb29_stays_feb28_witness :
  (forall k : nat,
     Nat.iter (S k) (Dayjs.add_years 1) (Some (mkDate 1992 1 29))
     = Some (mkDate (1992 + Z.of_nat (S k)) 1 28))
  /\ exists (r : date) (n : nat),
       (forall fuel, (n <= fuel)%nat ->
          exists a, getNextBirthday fuel (mkDate 2024 1 10) "1992-02-29"
                    = Some (mkOccurrence (Some r) a))
       /\ (date_ltb (mkDate 1992 1 29) (mkDate 2024 1 10) = false -> r = mkDate 1992 1 29)
       /\ (date_ltb (mkDate 1992 1 29) (mkDate 2024 1 10) = true ->
           1992 < dy r /\ dM r = 1 /\ dD r = 28 /\ date_leb (mkDate 2024 1 10) r = true).
Proof.
  apply (feb29_stays_feb28 (mkDate 2024 1 10) "1992-02-29" 1992); reflexivity.
Defined.

(** C3 (as stated) fails for a birthday with a birth year: with [today]
    1 June 2024 the candidate of 1990-06-15 is built in 1990 and the body
    of the loop runs 34 times. *)
Lemma loop_runs_once_per_year :
  Dayjs.parse (birthday_arg (mkDate 2024 5 1) "1990-06-15") = Some (mkDate 1990 5 15)
  /\ 1990 <> dy (mkDate 2024 5 1)
  /\ getNextBirthday_run 40 (mkDate 2024 5 1) "1990-06-15"
     = Some (mkOccurrence (Some (mkDate 2024 5 15)) (Some 34), 34%nat)
  /\ ~ (34 <= 2)%nat.
Proof.
  repeat split; try (vm_compute; reflexivity); cbn; lia.
Qed.

(** ** Parsing *)

Lemma four_digit_years_checked :
  forallb four_digit_year (List.map (fun n => 1000 + Z.of_nat n) (List.seq 0 (Z.to_nat 9000))) = true.
Proof. vm_compute. reflexivity. Qed.

(** A year from 1000 to 9999 prints as its four digits. *)
Lemma toString_year (y : Z) :
  1000 <= y <= 9999 ->
  exists a b c d,
    JsString.toString y = four a b c d
    /\ JsString.is_digit a = true /\ JsString.is_digit b = true
    /\ JsString.is_digit c = true /\ JsString.is_digit d = true
    /\ JsString.number (four a b c d) = y.
Proof.
  intros Hy.
  assert (H : four_digit_year y = true).
  { pose proof four_digit_years_checked as F.
    rewrite forallb_forall in F. apply F.
    apply in_map_iff. exists (Z.to_nat (y - 1000)). split; [lia|].
    apply in_seq. lia. }
  unfold four_digit_year in H.
  destruct (JsString.toString y) as [|a [|b [|c [|d [|e s]]]]]; try discriminate H.
  cbn [String.length Nat.eqb andb JsString.all_digits] in H.
  exists a, b, c, d.
  destruct (JsString.is_digit a); [|discriminate H].
  destruct (JsString.is_digit b); [|discriminate H].
  destruct (JsString.is_digit c); [|discriminate H].
  destruct (JsString.is_digit d); [|discriminate H].
  cbn [andb] in H. apply Z.eqb_eq in H.
  repeat split; exact H.
Qed.

Lemma parse_compact (y1 y2 y3 y4 m1 m2 d1 d2 : ascii) :
  JsString.is_digit y1 = true -> JsString.is_digit y2 = true ->
  JsString.is_digit y3 = true -> JsString.is_digit y4 = true ->
  JsString.is_digit m1 = true -> JsString.is_digit m2 = true ->
  JsString.is_digit d1 = true -> JsString.is_digit d2 = true ->
  Dayjs.parse (four y1 y2 y3 y4 ++ two m1 m2 ++ two d1 d2)
  = Some (newDate (JsString.number (four y1 y2 y3 y4))
                  (JsString.number (two m1 m2) - 1)
                  (JsString.number (two d1 d2))).
Proof.
  intros H1 H2 H3 H4 H5 H6 H7 H8.
  unfold Dayjs.parse, Dayjs.parse_groups.
  cbn [four two append String.length Nat.eqb andb JsString.all_digits].
  rewrite H1, H2, H3, H4, H5, H6, H7, H8. reflexivity.
Qed.

Lemma parse_iso (y1 y2 y3 y4 m1 m2 d1 d2 : ascii) :
  JsString.is_digit y1 = true -> JsString.is_digit y2 = true ->
  JsString.is_digit y3 = true -> JsString.is_digit y4 = true ->
  JsString.is_digit m1 = true -> JsString.is_digit m2 = true ->
  JsString.is_digit d1 = true -> JsString.is_digit d2 = true ->
  Dayjs.parse (iso y1 y2 y3 y4 m1 m2 d1 d2)
  = Some (newDate (JsString.number (four y1 y2 y3 y4))
                  (JsString.number (two m1 m2) - 1)
                  (JsString.number (two d1 d2))).
Proof.
  intros H1 H2 H3 H4 H5 H6 H7 H8.
  unfold Dayjs.parse, Dayjs.parse_groups, JsString.digits_at, JsString.startsWith,
    JsString.substr, iso.
  cbn -[JsString.is_digit JsString.number newDate].
  rewrite H1, H2, H3, H4, H5, H6, H7, H8. reflexivity.
Qed.

Lemma carry_day_in_month (fuel : nat) (y m d : Z) :
  1 <= d <= daysInMonth y m -> carry_day fuel y m d = mkDate y m d.
Proof.
  intros Hd. destruct fuel; [reflexivity|]. cbn [carry_day].
  destruct (Z.ltb_spec d 1); [lia|].
  destruct (Z.ltb_spec (daysInMonth y m) d); [lia|]. reflexivity.
Qed.

Lemma carry_month_in_year (y m : Z) : 0 <= m <= 11 -> carry_month y m = (y, m).
Proof.
  intros Hm. unfold carry_month.
  rewrite Z.div_small, Z.mod_small by lia. f_equal. lia.
Qed.

(** A date of the calendar is built as it is given. *)
Lemma newDate_valid (y m d : Z) :
  ~ 0 <= y <= 99 -> valid_date (mkDate y m d) -> newDate y m d = mkDate y m d.
Proof.
  intros Hy [Hm Hd]. cbn [dy dM dD] in *. unfold newDate.
  replace ((0 <=? y) && (y <=? 99)) with false
    by (symmetry; apply andb_false_iff;
        destruct (Z.leb_spec 0 y); [right; apply Z.leb_gt; lia | left; reflexivity]).
  rewrite carry_month_in_year by exact Hm.
  apply carry_day_in_month. exact Hd.
Qed.

(** A day from 1 to 31 of a month of the year stays in the year. *)
Lemma newDate_same_year (y m d : Z) :
  ~ 0 <= y <= 99 -> 0 <= m <= 11 -> 1 <= d <= 31 -> dy (newDate y m d) = y.
Proof.
  intros Hy Hm Hd. unfold newDate.
  replace ((0 <=? y) && (y <=? 99)) with false
    by (symmetry; apply andb_false_iff;
        destruct (Z.leb_spec 0 y); [right; apply Z.leb_gt; lia | left; reflexivity]).
  rewrite carry_month_in_year by exact Hm.
  cbn [carry_day].
  destruct (Z.ltb_spec d 1); [lia|].
  destruct (Z.ltb_spec (daysInMonth y m) d) as [L|G]; [|reflexivity].
  assert (m <> 11) by (intros ->; change (daysInMonth y 11) with 31 in L; lia).
  rewrite carry_month_in_year by lia.
  pose proof (daysInMonth_bounds y m). pose proof (daysInMonth_bounds y (m + 1)).
  rewrite carry_day_in_month by lia. reflexivity.
Qed.

(** A full date with a year from 100 on and a month and day of the
    calendar is read as that date. *)
Lemma parse_iso_valid (y1 y2 y3 y4 m1 m2 d1 d2 : ascii) :
  JsString.all_digits (four y1 y2 y3 y4 ++ two m1 m2 ++ two d1 d2) = true ->
  100 <= JsString.number (four y1 y2 y3 y4) ->
  valid_date (mkDate (JsString.number (four y1 y2 y3 y4))
                     (JsString.number (two m1 m2) - 1) (JsString.number (two d1 d2))) ->
  Dayjs.parse (iso y1 y2 y3 y4 m1 m2 d1 d2)
  = Some (mkDate (JsString.number (four y1 y2 y3 y4))
                 (JsString.number (two m1 m2) - 1) (JsString.number (two d1 d2))).
Proof.
  intros H Hy Hv. split_digits H.
  rewrite parse_iso by assumption.
  rewrite newDate_valid by (try exact Hv; lia). reflexivity.
Qed.

Lemma birthday_arg_yearless (today : date) (m1 m2 d1 d2 : ascii) :
  birthday_arg today (yearless m1 m2 d1 d2)
  = JsString.toString (dy today) ++ two m1 m2 ++ two d1 d2.
Proof. reflexivity. Qed.

(** A candidate in the year of [today] is advanced at most once. *)
Lemma advance_same_year (today bd : date) (fuel : nat) :
  dy bd = dy today -> (1 <= fuel)%nat ->
  exists r n, advance fuel today (Some bd) 0 = Some (r, n) /\ (n <= 1)%nat.
Proof.
  intros Hy Hfuel. destruct fuel as [|fuel]; [lia|].
  cbn [advance Dayjs.isBefore].
  destruct (date_ltb bd today).
  - cbn [Dayjs.add_years]. unfold Dayjs.clamp_day.
    rewrite advance_stop.
    + eexists _, _. split; [reflexivity | lia].
    + cbn [Dayjs.isBefore]. apply date_ltb_irrefl_year. lia.
  - eexists _, _. split; [reflexivity | lia].
Qed.

(** C3 (as amended).  For a birthday without a year, [--MMDD], with a
    month from 1 to 12 and a day from 1 to 31 (so for every valid
    month-day pair), and [today] in a year of four digits, the candidate
    is built in the calendar year of [today] and the body of the loop runs
    at most once. *)
Theorem yearless_candidate_in_current_year (today : date) (m1 m2 d1 d2 : ascii) :
  1000 <= dy today <= 9999 ->
  JsString.is_digit m1 = true -> JsString.is_digit m2 = true ->
  JsString.is_digit d1 = true -> JsString.is_digit d2 = true ->
  1 <= JsString.number (two m1 m2) <= 12 ->
  1 <= JsString.number (two d1 d2) <= 31 ->
  exists bd,
    Dayjs.parse (birthday_arg today (yearless m1 m2 d1 d2)) = Some bd
    /\ dy bd = dy today
    /\ forall fuel, (1 <= fuel)%nat ->
         exists o n,
           getNextBirthday_run fuel today (yearless m1 m2 d1 d2) = Some (o, n)
           /\ (n <= 1)%nat.
Proof.
  intros Hy H1 H2 H3 H4 Hm Hd.
  destruct (toString_year (dy today) Hy) as (a & b & c & d & Hs & Ha & Hb & Hc & Hdd & Hn).
  assert (Hp : Dayjs.parse (birthday_arg today (yearless m1 m2 d1 d2))
               = Some (newDate (dy today) (JsString.number (two m1 m2) - 1)
                               (JsString.number (two d1 d2)))).
  { rewrite birthday_arg_yearless, Hs, parse_compact by assumption.
    rewrite Hn. reflexivity. }
  assert (Hyear : dy (newDate (dy today) (JsString.number (two m1 m2) - 1)
                              (JsString.number (two d1 d2))) = dy today)
    by (apply newDate_same_year; lia).
  eexists. split; [exact Hp|]. split; [exact Hyear|].
  intros fuel Hfuel. unfold getNextBirthday_run. rewrite Hp.
  destruct (advance_same_year today _ fuel Hyear Hfuel) as (r & n & Hadv & Hn1).
  rewrite Hadv. eexists _, n. split; [reflexivity | exact Hn1].
Qed.

(** The theorem at the birthday [--0115] with [today] 1 June 2024. *)
Lemma yearless_candidate_in_current_year_witness :
  exists bd,
    Dayjs.parse (birthday_arg (mkDate 2024 5 1) (yearless "0" "1" "1" "5")) = Some bd
    /\ dy bd = dy (mkDate 2024 5 1)
    /\ forall fuel, (1 <= fuel)%nat ->
         exists o n,
           getNextBirthday_run fuel (mkDate 2024 5 1) (yearless "0" "1" "1" "5") = Some (o, n)
           /\ (n <= 1)%nat.
Proof.
  apply (yearless_candidate_in_current_year (mkDate 2024 5 1) "0" "1" "1" "5");
    try reflexivity; vm_compute; split; discriminate.
Defined.

(** ** Normalisation *)

Lemma prefix_cons (a c : ascii) (p s : string) :
  String.prefix (String a p) (String c s) = true -> c = a /\ String.prefix p s = true.
Proof.
  cbn -[ascii_dec].
  destruct (ascii_dec a c) as [E|N]; [intros H; split; [symmetry; exact E | exact H]|].
  discriminate.
Qed.

Lemma accepted_shape_cases (v : string) : accepted_shape v = true -> shape v.
Proof.
  unfold accepted_shape, Regex.bday_value_at, JsString.digits_at, JsString.startsWith,
    JsString.substr.
  destruct ((String.length (substring 0 8 v) =? 8)%nat
            && JsString.all_digits (substring 0 8 v)) eqn:E8.
  { intros H. apply String.eqb_eq in H. rewrite H in E8.
    destruct v as [|c1 [|c2 [|c3 [|c4 [|c5 [|c6 [|c7 [|c8 [|c9 v]]]]]]]]];
      try discriminate E8.
    apply (shape_compact c1 c2 c3 c4 c5 c6 c7 c8).
    apply andb_true_iff in E8. apply E8. }
  clear E8.
  destruct (String.prefix "--" v
            && ((String.length (substring 0 4 (JsString.drop 2 v)) =? 4)%nat
                && JsString.all_digits (substring 0 4 (JsString.drop 2 v)))) eqn:E6.
  { intros H. apply String.eqb_eq in H.
    destruct v as [|c1 [|c2 [|c3 [|c4 [|c5 [|c6 [|c7 v]]]]]]];
      try discriminate H;
      try (cbn -[ascii_dec JsString.is_digit] in E6;
           rewrite ?andb_false_r in E6; discriminate E6).
    apply andb_true_iff in E6. destruct E6 as [P D].
    apply andb_true_iff in D. destruct D as [_ D].
    apply prefix_cons in P. destruct P as [-> P].
    apply prefix_cons in P. destruct P as [-> _].
    apply (shape_yearless c3 c4 c5 c6). exact D. }
  clear E6.
  destruct ((String.length (substring 0 4 v) =? 4)%nat
            && JsString.all_digits (substring 0 4 v)
            && String.prefix "-" (JsString.drop 4 v)
            && ((String.length (substring 0 2 (JsString.drop 5 v)) =? 2)%nat
                && JsString.all_digits (substring 0 2 (JsString.drop 5 v)))
            && String.prefix "-" (JsString.drop 7 v)
            && ((String.length (substring 0 2 (JsString.drop 8 v)) =? 2)%nat
                && JsString.all_digits (substring 0 2 (JsString.drop 8 v)))) eqn:E10;
    [|discriminate].
  intros H. apply String.eqb_eq in H.
  destruct v as [|c1 [|c2 [|c3 [|c4 [|c5 [|c6 [|c7 [|c8 [|c9 [|c10 [|c11 v]]]]]]]]]]];
    try discriminate H;
    try (cbn -[ascii_dec JsString.is_digit] in E10;
         rewrite ?andb_false_r in E10; discriminate E10).
  cbn [String.length substring JsString.drop Nat.eqb andb] in E10.
  cbn [JsString.all_digits] in E10. rewrite !andb_true_iff in E10.
  destruct E10 as [[[[Hy P5] Hm] P8] Hd].
  apply prefix_cons in P5. destruct P5 as [-> _].
  apply prefix_cons in P8. destruct P8 as [-> _].
  apply (shape_iso c1 c2 c3 c4 c6 c7 c9 c10).
  cbn [four two append JsString.all_digits].
  rewrite !andb_true_iff. tauto.
Qed.

Lemma prefix_dash_digit (c : ascii) (p s : string) :
  JsString.is_digit c = true -> String.prefix (String "-" p) (String c s) = false.
Proof.
  intros H. cbn -[ascii_dec].
  destruct (ascii_dec "-" c) as [E|N]; [|reflexivity].
  subst c. vm_compute in H. discriminate H.
Qed.

Lemma includes_dash_digits (s : string) :
  JsString.all_digits s = true -> JsString.includes "-" s = false.
Proof.
  unfold JsString.includes. induction s as [|c s IH]; [reflexivity|].
  cbn [JsString.all_digits]. intros H. apply andb_true_iff in H. destruct H as [Hc Hs].
  cbn [String.index]. rewrite (prefix_dash_digit c "" s Hc).
  destruct (String.index 0 "-" s); [specialize (IH Hs); discriminate IH | reflexivity].
Qed.

Lemma birthday_of_match_compact (y1 y2 y3 y4 m1 m2 d1 d2 : ascii) :
  JsString.all_digits (four y1 y2 y3 y4 ++ two m1 m2 ++ two d1 d2) = true ->
  birthday_of_match (Some (four y1 y2 y3 y4 ++ two m1 m2 ++ two d1 d2))
  = iso y1 y2 y3 y4 m1 m2 d1 d2.
Proof.
  intros H. unfold birthday_of_match.
  rewrite (includes_dash_digits _ H).
  cbn [four two append JsString.all_digits] in H.
  apply andb_true_iff in H. destruct H as [H1 _].
  unfold JsString.startsWith. cbn [four two append].
  rewrite (prefix_dash_digit y1 "-" _ H1). reflexivity.
Qed.

Lemma birthday_of_match_iso (y1 y2 y3 y4 m1 m2 d1 d2 : ascii) :
  JsString.all_digits (four y1 y2 y3 y4 ++ two m1 m2 ++ two d1 d2) = true ->
  birthday_of_match (Some (iso y1 y2 y3 y4 m1 m2 d1 d2)) = iso y1 y2 y3 y4 m1 m2 d1 d2.
Proof.
  intros H. cbn [four two append JsString.all_digits] in H.
  rewrite !andb_true_iff in H. destruct H as (H1 & H2 & H3 & H4 & _).
  unfold birthday_of_match, JsString.includes, iso. cbn [four two append String.index].
  rewrite (prefix_dash_digit y1 "" _ H1), (prefix_dash_digit y2 "" _ H2),
    (prefix_dash_digit y3 "" _ H3), (prefix_dash_digit y4 "" _ H4).
  reflexivity.
Qed.

Lemma birthday_arg_iso (today : date) (y1 y2 y3 y4 m1 m2 d1 d2 : ascii) :
  JsString.is_digit y1 = true ->
  birthday_arg today (iso y1 y2 y3 y4 m1 m2 d1 d2) = iso y1 y2 y3 y4 m1 m2 d1 d2.
Proof.
  intros H1. unfold birthday_arg, JsString.startsWith, iso. cbn [four two append].
  rewrite (prefix_dash_digit y1 "-" _ H1). reflexivity.
Qed.

(** The date made of a value of the full-date shapes: the fields go to
    [new Date] as they are, in range or not. *)
Lemma birthdayDate_of_iso (today : date) (y1 y2 y3 y4 m1 m2 d1 d2 : ascii) :
  JsString.all_digits (four y1 y2 y3 y4 ++ two m1 m2 ++ two d1 d2) = true ->
  birthdayDate_of_match today (Some (iso y1 y2 y3 y4 m1 m2 d1 d2))
  = Some (newDate (JsString.number (four y1 y2 y3 y4))
                  (JsString.number (two m1 m2) - 1) (JsString.number (two d1 d2))).
Proof.
  intros H. unfold birthdayDate_of_match.
  rewrite (birthday_of_match_iso _ _ _ _ _ _ _ _ H).
  split_digits H.
  rewrite birthday_arg_iso by assumption. apply parse_iso; assumption.
Qed.

Lemma birthdayDate_of_compact (today : date) (y1 y2 y3 y4 m1 m2 d1 d2 : ascii) :
  JsString.all_digits (four y1 y2 y3 y4 ++ two m1 m2 ++ two d1 d2) = true ->
  birthdayDate_of_match today (Some (four y1 y2 y3 y4 ++ two m1 m2 ++ two d1 d2))
  = Some (newDate (JsString.number (four y1 y2 y3 y4))
                  (JsString.number (two m1 m2) - 1) (JsString.number (two d1 d2))).
Proof.
  intros H. unfold birthdayDate_of_match.
  rewrite (birthday_of_match_compact _ _ _ _ _ _ _ _ H).
  split_digits H.
  rewrite birthday_arg_iso by assumption. apply parse_iso; assumption.
Qed.

Lemma birthdayDate_of_yearless (today : date) (m1 m2 d1 d2 : ascii) :
  1000 <= dy today <= 9999 ->
  JsString.all_digits (two m1 m2 ++ two d1 d2) = true ->
  birthdayDate_of_match today (Some (yearless m1 m2 d1 d2))
  = Some (newDate (dy today) (JsString.number (two m1 m2) - 1)
                  (JsString.number (two d1 d2))).
Proof.
  intros Hy H. unfold birthdayDate_of_match.
  change (birthday_of_match (Some (yearless m1 m2 d1 d2))) with (yearless m1 m2 d1 d2).
  rewrite birthday_arg_yearless.
  destruct (toString_year (dy today) Hy) as (a & b & c & d & Hs & Ha & Hb & Hc & Hd & Hn).
  split_digits H.
  rewrite Hs, parse_compact by assumption. rewrite Hn. reflexivity.
Qed.

(** C5 (as stated) fails on a month out of range: the value 1990-13-01
    is matched, its month is 13, and the date made of it is 1 January
    1991, not an Invalid Date. *)
Lemma month_13_not_rejected :
  Regex.bdayRegex "BDAY:1990-13-01" = Some "1990-13-01"
  /\ ~ 1 <= JsString.number "13" <= 12
  /\ birthdayDate_of_match (mkDate 2024 5 1) (Some "1990-13-01") = Some (mkDate 1991 0 1).
Proof.
  split; [reflexivity|]. split; [|reflexivity].
  vm_compute. intros [_ H]. apply H. reflexivity.
Qed.

(** ** Fuel *)

(** More fuel does not change a result. *)
Lemma advance_more_fuel (today : date) (fuel fuel' : nat) :
  (fuel <= fuel')%nat ->
  forall nb it r, advance fuel today nb it = Some r -> advance fuel' today nb it = Some r.
Proof.
  revert fuel'. induction fuel as [|fuel IH]; intros fuel' Hle nb it r H.
  - cbn [advance] in H. destruct (Dayjs.isBefore nb today) eqn:E; [discriminate H|].
    rewrite advance_stop by exact E. exact H.
  - destruct fuel' as [|fuel']; [lia|].
    cbn [advance] in *. destruct (Dayjs.isBefore nb today); [|exact H].
    apply (IH fuel'); [lia | exact H].
Qed.

Lemma getNextBirthday_more_fuel (today : date) (s : string) (fuel fuel' : nat) (o : occurrence) :
  (fuel <= fuel')%nat ->
  getNextBirthday fuel today s = Some o -> getNextBirthday fuel' today s = Some o.
Proof.
  intros Hle. unfold getNextBirthday, getNextBirthday_run.
  destruct (advance fuel today _ 0) as [[nb it]|] eqn:E; [|discriminate].
  rewrite (advance_more_fuel today fuel fuel' Hle _ _ _ E). intros H. exact H.
Qed.

Lemma visit_more_fuel (today : date) (fuel fuel' : nat) (cs cs' : list contact) (data : string) :
  (fuel <= fuel')%nat ->
  visit fuel today cs data = Some cs' -> visit fuel' today cs data = Some cs'.
Proof.
  intros Hle. unfold visit. destruct (JsString.includes "BDAY" data); [|intros H; exact H].
  destruct (getNextBirthday fuel today _) as [o|] eqn:E; [|discriminate].
  rewrite (getNextBirthday_more_fuel today _ fuel fuel' o Hle E). intros H. exact H.
Qed.

Lemma forEach_more_fuel (today : date) (fuel fuel' : nat) (objects : list string) :
  (fuel <= fuel')%nat ->
  forall cs cs', forEach fuel today cs objects = Some cs' ->
                 forEach fuel' today cs objects = Some cs'.
Proof.
  intros Hle. induction objects as [|data rest IH]; intros cs cs' H; [exact H|].
  cbn [forEach] in *.
  destruct (visit fuel today cs data) as [cs1|] eqn:E; [|discriminate H].
  rewrite (visit_more_fuel today fuel fuel' cs cs1 data Hle E). apply IH. exact H.
Qed.

Lemma fetchContacts_more_fuel (today : date) (fuel fuel' : nat) (a : account)
    (cs : list contact) :
  (fuel <= fuel')%nat ->
  fetchContacts fuel today a = Some cs -> fetchContacts fuel' today a = Some cs.
Proof.
  intros Hle. destruct a as [|books]; [intros H; exact H|].
  apply forEach_more_fuel. exact Hle.
Qed.

(** ** The extractor *)

(** A record without the text [BDAY] leaves the array as it is. *)
Lemma visit_without_bday (fuel : nat) (today : date) (cs : list contact) (data : string) :
  JsString.includes "BDAY" data = false -> visit fuel today cs data = Some cs.
Proof. intros H. unfold visit. rewrite H. reflexivity. Qed.

(** A record with the text [BDAY] whose value [bdayRegex] does not match
    is pushed all the same, with an empty birthday and an Invalid Date. *)
Lemma visit_unmatched_bday (fuel : nat) (today : date) (cs : list contact) (data : string) :
  JsString.includes "BDAY" data = true ->
  Regex.bdayRegex data = None ->
  exists fn,
    visit fuel today cs data
    = Some (cs ++ [mkContact fn "" (mkOccurrence None (Some 0))])%list.
Proof.
  intros Hi Hm. unfold visit. rewrite Hi, Hm. cbn [birthday_of_match].
  unfold getNextBirthday, getNextBirthday_run.
  change (Dayjs.parse (birthday_arg today "")) with (@None date).
  rewrite advance_stop by reflexivity. cbn. eexists. reflexivity.
Qed.

(** C7 (as amended).  With [today] 1 June 2024, three records with the
    birthdays [--0615], [1990-06-15] and [1990-01-01] give the occurrences
    15 June 2024 with age 0, 15 June 2024 with age 34 and 1 January 2025
    with age 35. *)
Theorem scenario_2024_06_01 (fuel : nat) :
  (35 <= fuel)%nat ->
  fetchContacts fuel (mkDate 2024 5 1)
    (Resolved [[vcard "Ann" "--0615"; vcard "Ben" "1990-06-15"; vcard "Cleo" "1990-01-01"]])
  = Some [ mkContact "Ann" "--0615" (mkOccurrence (Some (mkDate 2024 5 15)) (Some 0));
           mkContact "Ben" "1990-06-15" (mkOccurrence (Some (mkDate 2024 5 15)) (Some 34));
           mkContact "Cleo" "1990-01-01" (mkOccurrence (Some (mkDate 2025 0 1)) (Some 35)) ].
Proof.
  intros H. apply (fetchContacts_more_fuel _ 35 fuel); [exact H|].
  vm_compute. reflexivity.
Qed.

(** The theorem at the fuel 35. *)
Lemma scenario_2024_06_01_witness :
  fetchContacts 35 (mkDate 2024 5 1)
    (Resolved [[vcard "Ann" "--0615"; vcard "Ben" "1990-06-15"; vcard "Cleo" "1990-01-01"]])
  = Some [ mkContact "Ann" "--0615" (mkOccurrence (Some (mkDate 2024 5 15)) (Some 0));
           mkContact "Ben" "1990-06-15" (mkOccurrence (Some (mkDate 2024 5 15)) (Some 34));
           mkContact "Cleo" "1990-01-01" (mkOccurrence (Some (mkDate 2025 0 1)) (Some 35)) ].
Proof.
  apply (scenario_2024_06_01 35). lia.
Defined.

(** C7 (as stated) fails on its first part: the birthday [--0615] comes
    out with the age 0, a number, and not without an age. *)
Lemma yearless_age_is_zero :
  exists c,
    fetchContacts 35 (mkDate 2024 5 1) (Resolved [[vcard "Ann" "--0615"]]) = Some [c]
    /\ nextBirthday (spread c) = Some (mkDate 2024 5 15)
    /\ age (spread c) <> None.
Proof.
  eexists. split; [vm_compute; reflexivity|]. split; [reflexivity | discriminate].
Qed.

(** C4, on the code: of a record without [BDAY], a record whose [BDAY]
    value is not of an accepted shape and a well-formed record, the first
    is left out and the third is processed, but the second is returned
    too, with an empty birthday, an Invalid Date and the age 0. *)
Theorem malformed_bday_is_kept :
  fetchContacts 35 (mkDate 2024 5 1)
    (Resolved [[vcard_without_bday "Dan"; vcard "Eve" "1990"; vcard "Cleo" "1990-01-01"]])
  = Some [ mkContact "Eve" "" (mkOccurrence None (Some 0));
           mkContact "Cleo" "1990-01-01" (mkOccurrence (Some (mkDate 2025 0 1)) (Some 35)) ].
Proof. vm_compute. reflexivity. Qed.

(** ** The cache *)

(** C2, on the code: when the directory fetch is rejected, [updateCache]
    sets the cache entry to the serialisation of the empty contact list,
    whatever was cached before, and the route serves that. *)
Theorem updateCache_rejected_overwrites
    (icsResult ambient : Type) (ics_createEvents : ambient -> list eventAttributes -> icsResult)
    (fuel : nat) (today : date) (env : ambient) (localCache : cache icsResult) :
  updateCache icsResult ambient ics_createEvents fuel today env Rejected localCache
  = Some (Some (ics_createEvents env []))
  /\ get_calendar icsResult (Some (ics_createEvents env []))
     = Status200 icsResult "text/calendar; charset=utf-8" (ics_createEvents env []).
Proof. split; reflexivity. Qed.

(** A refresh that succeeds and a refresh whose fetch is rejected, one
    after the other: the entry of the first is replaced. *)
Lemma rejection_after_success
    (icsResult ambient : Type) (ics_createEvents : ambient -> list eventAttributes -> icsResult)
    (env env' : ambient) :
  exists e,
    updateCache icsResult ambient ics_createEvents 35 (mkDate 2024 5 1) env
      (Resolved [[vcard "Cleo" "1990-01-01"]]) None
    = Some (Some (ics_createEvents env [e]))
    /\ updateCache icsResult ambient ics_createEvents 35 (mkDate 2024 5 1) env'
         Rejected (Some (ics_createEvents env [e]))
       = Some (Some (ics_createEvents env' [])).
Proof.
  eexists. split; [|reflexivity].
  unfold updateCache, getICSString.
  replace (fetchContacts 35 (mkDate 2024 5 1) (Resolved [[vcard "Cleo" "1990-01-01"]]))
    with (Some [mkContact "Cleo" "1990-01-01"
                  (mkOccurrence (Some (mkDate 2025 0 1)) (Some 35))])
    by (vm_compute; reflexivity).
  reflexivity.
Qed.

(** ** Termination of the loop on every input *)

Lemma date_ltb_year_le (a b : date) : date_ltb a b = true -> dy a <= dy b.
Proof.
  unfold date_ltb. intros H. apply orb_true_iff in H. destruct H as [H|H].
  - apply Z.ltb_lt in H. lia.
  - apply andb_true_iff in H. destruct H as [H _]. apply Z.eqb_eq in H. lia.
Qed.

(** Each pass of the loop adds one to the year, so the loop is left after
    at most [dy today + 1 - dy bd] passes, on a day that is not before
    [today]. *)
Lemma advance_terminates (today : date) (k : nat) :
  forall (bd : date) (fuel it : nat),
    dy today + 1 - dy bd <= Z.of_nat k -> (k <= fuel)%nat ->
    exists r n, advance fuel today (Some bd) it = Some (Some r, n)
                /\ date_ltb r today = false.
Proof.
  induction k as [|k IH]; intros bd fuel it Hk Hfuel.
  - exists bd, it. 
    assert (E : date_ltb bd today = false).
    { destruct (date_ltb bd today) eqn:E; [|reflexivity].
      apply date_ltb_year_le in E. lia. }
    split; [apply advance_stop; exact E | exact E].
  - destruct (date_ltb bd today) eqn:E.
    + destruct fuel as [|fuel]; [lia|].
      cbn [advance Dayjs.isBefore]. rewrite E. cbn [Dayjs.add_years].
      apply IH; [unfold Dayjs.clamp_day; cbn [dy]; lia | lia].
    + exists bd, it. split; [apply advance_stop; exact E | exact E].
Qed.

Lemma getNextBirthday_returns (today : date) (s : string) (fuel : nat) :
  (enough_fuel today s <= fuel)%nat ->
  exists o,
    getNextBirthday fuel today s = Some o
    /\ (forall r, nextBirthday o = Some r -> date_leb today r = true)
    /\ (nextBirthday o = None <-> Dayjs.parse (birthday_arg today s) = None).
Proof.
  unfold enough_fuel, getNextBirthday, getNextBirthday_run. intros Hfuel.
  destruct (Dayjs.parse (birthday_arg today s)) as [bd|] eqn:Hp.
  - destruct (advance_terminates today (Z.to_nat (dy today + 1 - dy bd)) bd fuel 0%nat)
      as (r & n & Hadv & Hr); [lia | exact Hfuel |].
    rewrite Hadv. cbn. eexists. split; [reflexivity|]. cbn. split.
    + intros r' E. injection E as <-. unfold date_leb. rewrite Hr. reflexivity.
    + split; discriminate.
  - rewrite advance_stop by reflexivity. cbn. eexists. split; [reflexivity|]. cbn.
    split; [discriminate | split; reflexivity].
Qed.

(** ** What [bdayRegex] captures *)

Lemma search_found (at_start : string -> option string) (s : string) (g : string) :
  Regex.search at_start s = Some g -> exists n, at_start (JsString.drop n s) = Some g.
Proof.
  induction s as [|c s IH]; cbn [Regex.search]; intros H.
  - destruct (at_start "") eqn:E; [|discriminate H].
    exists 0%nat. cbn. rewrite E. exact H.
  - destruct (at_start (String c s)) eqn:E.
    + exists 0%nat. cbn. rewrite E. exact H.
    + destruct (IH H) as [n Hn]. exists (S n). exact Hn.
Qed.

Lemma bday_at_value (s g : string) :
  Regex.bday_at s = Some g -> exists s', Regex.bday_value_at s' = Some g.
Proof.
  unfold Regex.bday_at, Regex.colon_value_at. intros H.
  destruct (JsString.startsWith "BDAY" s); [|discriminate H].
  destruct (JsString.startsWith ";VALUE=date" (JsString.drop 4 s)).
  - destruct (JsString.startsWith ":" (JsString.drop 11 (JsString.drop 4 s))).
    + destruct (Regex.bday_value_at (JsString.drop 1 (JsString.drop 11 (JsString.drop 4 s))))
        eqn:E.
      * injection H as <-. eexists. exact E.
      * destruct (JsString.startsWith ":" (JsString.drop 4 s)); [|discriminate H].
        eexists. exact H.
    + destruct (JsString.startsWith ":" (JsString.drop 4 s)); [|discriminate H].
      eexists. exact H.
  - destruct (JsString.startsWith ":" (JsString.drop 4 s)); [|discriminate H].
    eexists. exact H.
Qed.

Lemma bday_value_at_shape (s g : string) : Regex.bday_value_at s = Some g -> shape g.
Proof.
  unfold Regex.bday_value_at, JsString.digits_at, JsString.startsWith, JsString.substr.
  destruct ((String.length (substring 0 8 s) =? 8)%nat
            && JsString.all_digits (substring 0 8 s)) eqn:E8.
  { intros H. injection H as <-.
    destruct (substring 0 8 s) as [|c1 [|c2 [|c3 [|c4 [|c5 [|c6 [|c7 [|c8 [|c9 v]]]]]]]]];
      try discriminate E8.
    apply (shape_compact c1 c2 c3 c4 c5 c6 c7 c8).
    apply andb_true_iff in E8. apply E8. }
  clear E8.
  destruct (String.prefix "--" s
            && ((String.length (substring 0 4 (JsString.drop 2 s)) =? 4)%nat
                && JsString.all_digits (substring 0 4 (JsString.drop 2 s)))) eqn:E6.
  { intros H. injection H as <-.
    apply andb_true_iff in E6. destruct E6 as [P D].
    destruct s as [|c1 [|c2 s]]; try discriminate P.
    { apply prefix_cons in P. destruct P as [_ P]. discriminate P. }
    apply prefix_cons in P. destruct P as [-> P].
    apply prefix_cons in P. destruct P as [-> _].
    cbn [JsString.drop] in D.
    assert (E : substring 0 6 (String "-" (String "-" s)) = "--" ++ substring 0 4 s)
      by reflexivity.
    rewrite E.
    destruct (substring 0 4 s) as [|c3 [|c4 [|c5 [|c6 [|c7 v]]]]]; try discriminate D.
    apply andb_true_iff in D. destruct D as [_ D].
    apply (shape_yearless c3 c4 c5 c6). exact D. }
  clear E6.
  destruct ((String.length (substring 0 4 s) =? 4)%nat
            && JsString.all_digits (substring 0 4 s)
            && String.prefix "-" (JsString.drop 4 s)
            && ((String.length (substring 0 2 (JsString.drop 5 s)) =? 2)%nat
                && JsString.all_digits (substring 0 2 (JsString.drop 5 s)))
            && String.prefix "-" (JsString.drop 7 s)
            && ((String.length (substring 0 2 (JsString.drop 8 s)) =? 2)%nat
                && JsString.all_digits (substring 0 2 (JsString.drop 8 s)))) eqn:E10;
    [|discriminate].
  intros H. injection H as <-.
  destruct s as [|c1 [|c2 [|c3 [|c4 [|c5 [|c6 [|c7 [|c8 [|c9 [|c10 s]]]]]]]]]];
    try (cbn -[ascii_dec JsString.is_digit] in E10;
         rewrite ?andb_false_r in E10; discriminate E10).
  cbn [String.length substring JsString.drop Nat.eqb andb] in E10.
  cbn [JsString.all_digits] in E10. rewrite !andb_true_iff in E10.
  destruct E10 as [[[[Hy P5] Hm] P8] Hd].
  apply prefix_cons in P5. destruct P5 as [-> _].
  apply prefix_cons in P8. destruct P8 as [-> _].
  assert (E : substring 0 10
                (String c1 (String c2 (String c3 (String c4 (String "-"
                  (String c6 (String c7 (String "-" (String c9 (String c10 s))))))))))
              = iso c1 c2 c3 c4 c6 c7 c9 c10).
  { cbn [substring]. destruct s; reflexivity. }
  rewrite E. apply shape_iso.
  cbn [four two append JsString.all_digits].
  rewrite !andb_true_iff. tauto.
Qed.

Lemma bdayRegex_shape (data g : string) : Regex.bdayRegex data = Some g -> shape g.
Proof.
  intros H. apply search_found in H. destruct H as [n H].
  apply bday_at_value in H. destruct H as [s' H].
  apply (bday_value_at_shape s' g H).
Qed.

Lemma substring_drop (n : nat) (s : string) : substring 0 n s ++ JsString.drop n s = s.
Proof.
  revert s. induction n as [|n IH]; intros s.
  - destruct s; reflexivity.
  - destruct s as [|c s]; [reflexivity|].
    cbn [substring JsString.drop append]. rewrite IH. reflexivity.
Qed.

Lemma prefix_append (p s : string) :
  String.prefix p s = true -> s = p ++ JsString.drop (String.length p) s.
Proof.
  revert s. induction p as [|a p IH]; intros s H; [reflexivity|].
  destruct s as [|c s]; [discriminate H|].
  apply prefix_cons in H. destruct H as [-> H].
  cbn [String.length JsString.drop append]. rewrite <- (IH s H). reflexivity.
Qed.

Lemma append_assoc (a b c : string) : (a ++ b) ++ c = a ++ (b ++ c).
Proof. induction a as [|x a IH]; [reflexivity|]. cbn [append]. rewrite IH. reflexivity. Qed.

(** The group is read at the very start of the text it is tried on. *)
Lemma bday_value_at_prefix (s g : string) :
  Regex.bday_value_at s = Some g -> exists post, s = g ++ post.
Proof.
  unfold Regex.bday_value_at, JsString.substr. intros H.
  destruct (JsString.digits_at 8 s).
  { injection H as <-. exists (JsString.drop 8 s). symmetry. apply substring_drop. }
  destruct (JsString.startsWith "--" s && JsString.digits_at 4 (JsString.drop 2 s)).
  { injection H as <-. exists (JsString.drop 6 s). symmetry. apply substring_drop. }
  match type of H with (if ?c then _ else _) = _ => destruct c end; [|discriminate H].
  injection H as <-. exists (JsString.drop 10 s). symmetry. apply substring_drop.
Qed.

Lemma colon_value_at_prefix (s g : string) :
  Regex.colon_value_at s = Some g -> exists post, s = ":" ++ g ++ post.
Proof.
  unfold Regex.colon_value_at, JsString.startsWith. intros H.
  destruct (String.prefix ":" s) eqn:P; [|discriminate H].
  apply bday_value_at_prefix in H. destruct H as [post H].
  exists post. rewrite (prefix_append ":" s P). cbn [String.length]. rewrite H. reflexivity.
Qed.

Lemma bday_at_prefix (s g : string) :
  Regex.bday_at s = Some g ->
  exists opt post, s = "BDAY" ++ opt ++ ":" ++ g ++ post /\ (opt = "" \/ opt = ";VALUE=date").
Proof.
  unfold Regex.bday_at, JsString.startsWith. intros H.
  destruct (String.prefix "BDAY" s) eqn:P; [|discriminate H].
  rewrite (prefix_append "BDAY" s P). cbn [String.length].
  set (rest := JsString.drop 4 s) in *.
  destruct (String.prefix ";VALUE=date" rest) eqn:V.
  - destruct (Regex.colon_value_at (JsString.drop 11 rest)) eqn:E.
    + injection H as <-. apply colon_value_at_prefix in E. destruct E as [post E].
      exists ";VALUE=date", post. split; [|right; reflexivity].
      rewrite (prefix_append ";VALUE=date" rest V). cbn [String.length].
      rewrite E. reflexivity.
    + apply colon_value_at_prefix in H. destruct H as [post H].
      exists "", post. split; [|left; reflexivity]. rewrite H. reflexivity.
  - apply colon_value_at_prefix in H. destruct H as [post H].
    exists "", post. split; [|left; reflexivity]. rewrite H. reflexivity.
Qed.

(** X2.  Whatever [bdayRegex] captures from a record stands in the record
    right after [BDAY:] or [BDAY;VALUE=date:], and is of one of the three
    shapes: eight digits, [--] and four digits, or [dddd-dd-dd]. *)
Theorem bdayRegex_captures (data g : string) :
  Regex.bdayRegex data = Some g ->
  shape g
  /\ exists pre opt post,
       data = pre ++ "BDAY" ++ opt ++ ":" ++ g ++ post
       /\ (opt = "" \/ opt = ";VALUE=date").
Proof.
  intros H. split; [apply (bdayRegex_shape data g H)|].
  apply search_found in H. destruct H as [n H].
  apply bday_at_prefix in H. destruct H as (opt & post & E & Hopt).
  exists (substring 0 n data), opt, post. split; [|exact Hopt].
  rewrite <- E. symmetry. apply substring_drop.
Qed.

(** The theorem at a record with the parameter [VALUE=date]. *)
Lemma bdayRegex_captures_witness :
  shape "19900615"
  /\ exists pre opt post,
       vcard_without_bday "Ben" ++ LF ++ "BDAY;VALUE=date:19900615" ++ LF
       = pre ++ "BDAY" ++ opt ++ ":" ++ "19900615" ++ post
       /\ (opt = "" \/ opt = ";VALUE=date").
Proof.
  apply (bdayRegex_captures
           (vcard_without_bday "Ben" ++ LF ++ "BDAY;VALUE=date:19900615" ++ LF) "19900615").
  vm_compute. reflexivity.
Defined.

(** ** Records with a well-formed birthday line are matched *)

Lemma search_complete (at_start : string -> option string) (pre s g : string) :
  at_start s = Some g -> exists g', Regex.search at_start (pre ++ s) = Some g'.
Proof.
  intros H. induction pre as [|c pre IH].
  - exists g. cbn [append]. destruct s; cbn [Regex.search]; rewrite H; reflexivity.
  - cbn [append Regex.search].
    destruct (at_start (String c (pre ++ s))) as [g0|]; [exists g0; reflexivity|].
    exact IH.
Qed.

Lemma substring_0_0 (s : string) : substring 0 0 s = "".
Proof. destruct s; reflexivity. Qed.

Lemma bday_value_at_shape_complete (g post : string) :
  shape g -> Regex.bday_value_at (g ++ post) = Some g.
Proof.
  intros [y1 y2 y3 y4 m1 m2 d1 d2 D | m1 m2 d1 d2 D | y1 y2 y3 y4 m1 m2 d1 d2 D];
    split_digits D;
    unfold Regex.bday_value_at, JsString.digits_at, JsString.startsWith, JsString.substr,
      iso, yearless;
    cbn [four two append substring String.length Nat.eqb andb JsString.all_digits
         JsString.drop];
    rewrite ?substring_0_0; cbn [String.length Nat.eqb andb JsString.all_digits].
  - rewrite D0, D1, D2, D3, D4, D5, D6, D7. reflexivity.
  - change (JsString.is_digit "-") with false. cbn [andb].
    rewrite ?andb_false_r, D0, D1, D2, D3. reflexivity.
  - rewrite D0, D1, D2, D3. change (JsString.is_digit "-") with false.
    cbn [andb]. rewrite ?andb_false_r.
    rewrite D4, D5, D6, D7. reflexivity.
Qed.

Lemma prefix_empty (s : string) : String.prefix "" s = true.
Proof. destruct s; reflexivity. Qed.

Lemma bday_at_complete (opt g post : string) :
  shape g -> opt = "" \/ opt = ";VALUE=date" ->
  Regex.bday_at ("BDAY" ++ opt ++ ":" ++ g ++ post) = Some g.
Proof.
  intros Hs [-> | ->]; unfold Regex.bday_at, Regex.colon_value_at, JsString.startsWith;
    cbn -[Regex.bday_value_at]; rewrite ?prefix_empty;
    rewrite (bday_value_at_shape_complete g post Hs); reflexivity.
Qed.

Lemma includes_append (p pre post : string) :
  JsString.includes p (pre ++ p ++ post) = true.
Proof.
  unfold JsString.includes.
  assert (P : String.prefix p (p ++ post) = true).
  { induction p as [|a p IH]; [apply prefix_empty|].
    cbn -[ascii_dec]. destruct (ascii_dec a a); [exact IH | congruence]. }
  induction pre as [|c pre IH]; cbn [append].
  - destruct (p ++ post) as [|c s] eqn:E.
    + destruct p; [reflexivity | discriminate E].
    + cbn [String.index]. rewrite P. reflexivity.
  - cbn [String.index].
    destruct (String.prefix p (String c (pre ++ p ++ post))); [reflexivity|].
    destruct (String.index 0 p (pre ++ p ++ post)); [reflexivity | discriminate IH].
Qed.

(** X3.  A record that carries [BDAY:] or [BDAY;VALUE=date:] followed by a
    value of one of the three shapes passes the test [includes('BDAY')]
    and is matched by [bdayRegex]; what is captured is again of one of the
    three shapes. *)
Theorem wellformed_bday_is_matched (pre opt g post : string) :
  shape g -> opt = "" \/ opt = ";VALUE=date" ->
  JsString.includes "BDAY" (pre ++ "BDAY" ++ opt ++ ":" ++ g ++ post) = true
  /\ exists g', Regex.bdayRegex (pre ++ "BDAY" ++ opt ++ ":" ++ g ++ post) = Some g'
                /\ shape g'.
Proof.
  intros Hs Hopt. split; [apply includes_append|].
  destruct (search_complete Regex.bday_at pre _ g (bday_at_complete opt g post Hs Hopt))
    as [g' Hg'].
  exists g'. split; [exact Hg' | apply (bdayRegex_shape _ g' Hg')].
Qed.

(** The theorem at a record with the value [1990-06-15]. *)
Lemma wellformed_bday_is_matched_witness :
  JsString.includes "BDAY" ("FN:Ben" ++ LF ++ "BDAY" ++ "" ++ ":" ++ "1990-06-15" ++ LF) = true
  /\ exists g', Regex.bdayRegex ("FN:Ben" ++ LF ++ "BDAY" ++ "" ++ ":" ++ "1990-06-15" ++ LF)
                = Some g'
                /\ shape g'.
Proof.
  apply (wellformed_bday_is_matched ("FN:Ben" ++ LF) "" "1990-06-15" LF).
  - apply (shape_iso "1" "9" "9" "0" "0" "6" "1" "5"). reflexivity.
  - left. reflexivity.
Defined.

(** ** The string kept as [birthday] *)

Lemma startsWith_dashes_includes_dash (v : string) :
  JsString.startsWith "--" v = true -> JsString.includes "-" v = true.
Proof.
  unfold JsString.startsWith, JsString.includes. intros H.
  destruct v as [|c v]; [discriminate H|].
  apply prefix_cons in H. destruct H as [-> _].
  cbn [String.index]. cbn. rewrite prefix_empty. reflexivity.
Qed.

(** X4.  The branch of lines 81-83 (the rewriting of [--MMDD] to
    [--MM-DD]) is never taken: a value that starts with [--] contains [-]
    and is kept as it is by the branch before.  So the string kept is the
    value itself when it contains a hyphen, and otherwise the value cut
    into [YYYY-MM-DD]. *)
Theorem birthday_of_match_two_branches (v : string) :
  birthday_of_match (Some v)
  = if JsString.includes "-" v then v
    else JsString.substr 0 4 v ++ "-" ++ JsString.substr 4 2 v ++ "-" ++ JsString.substr 6 2 v.
Proof.
  unfold birthday_of_match.
  destruct (JsString.includes "-" v) eqn:E; [reflexivity|].
  destruct (JsString.startsWith "--" v) eqn:P; [|reflexivity].
  rewrite (startsWith_dashes_includes_dash v P) in E. discriminate E.
Qed.

Lemma birthday_of_match_stored (data : string) :
  stored_birthday (birthday_of_match (Regex.bdayRegex data)).
Proof.
  destruct (Regex.bdayRegex data) as [g|] eqn:E; [|apply stored_empty].
  destruct (bdayRegex_shape data g E)
    as [y1 y2 y3 y4 m1 m2 d1 d2 D | m1 m2 d1 d2 D | y1 y2 y3 y4 m1 m2 d1 d2 D].
  - rewrite birthday_of_match_compact by exact D. apply stored_iso. exact D.
  - change (birthday_of_match (Some (yearless m1 m2 d1 d2))) with (yearless m1 m2 d1 d2).
    apply stored_yearless. exact D.
  - rewrite birthday_of_match_iso by exact D. apply stored_iso. exact D.
Qed.

(** X5.  A birthday given as [YYYYMMDD] is kept as [YYYY-MM-DD]: the
    string stored is the one stored for the hyphenated form, and so is the
    occurrence computed from it. *)
Theorem compact_is_iso (fuel : nat) (today : date) (y1 y2 y3 y4 m1 m2 d1 d2 : ascii) :
  JsString.all_digits (four y1 y2 y3 y4 ++ two m1 m2 ++ two d1 d2) = true ->
  birthday_of_match (Some (four y1 y2 y3 y4 ++ two m1 m2 ++ two d1 d2))
  = iso y1 y2 y3 y4 m1 m2 d1 d2
  /\ birthday_of_match (Some (iso y1 y2 y3 y4 m1 m2 d1 d2)) = iso y1 y2 y3 y4 m1 m2 d1 d2
  /\ getNextBirthday fuel today
       (birthday_of_match (Some (four y1 y2 y3 y4 ++ two m1 m2 ++ two d1 d2)))
     = getNextBirthday fuel today (birthday_of_match (Some (iso y1 y2 y3 y4 m1 m2 d1 d2))).
Proof.
  intros D.
  rewrite (birthday_of_match_compact _ _ _ _ _ _ _ _ D).
  rewrite (birthday_of_match_iso _ _ _ _ _ _ _ _ D).
  repeat split.
Qed.

(** The theorem at [19900615]. *)
Lemma compact_is_iso_witness :
  birthday_of_match (Some "19900615") = "1990-06-15"
  /\ birthday_of_match (Some "1990-06-15") = "1990-06-15"
  /\ getNextBirthday 40 (mkDate 2024 5 1) (birthday_of_match (Some "19900615"))
     = getNextBirthday 40 (mkDate 2024 5 1) (birthday_of_match (Some "1990-06-15")).
Proof.
  apply (compact_is_iso 40 (mkDate 2024 5 1) "1" "9" "9" "0" "0" "6" "1" "5").
  reflexivity.
Defined.

(** ** The array [fetchContacts] returns *)

Lemma visit_pushes (fuel : nat) (today : date) (cs : list contact) (data : string) :
  JsString.includes "BDAY" data = true ->
  (enough_fuel today (birthday_in data) <= fuel)%nat ->
  exists c,
    visit fuel today cs data = Some (cs ++ [c])%list
    /\ fullName c = fullName_of data /\ birthday c = birthday_in data
    /\ contact_sound today c.
Proof.
  intros Hi Hfuel. unfold visit. rewrite Hi.
  destruct (getNextBirthday_returns today (birthday_in data) fuel Hfuel)
    as (o & Ho & Hge & Hnone).
  unfold birthday_in in Ho. rewrite Ho.
  eexists. split; [reflexivity|]. cbn [fullName birthday spread].
  split; [reflexivity|]. split; [reflexivity|].
  split; [apply birthday_of_match_stored|]. split; assumption.
Qed.

Lemma forEach_contacts (today : date) (objects : list string) :
  forall (cs : list contact) (fuel : nat),
    (fuel_for today objects <= fuel)%nat ->
    exists cs',
      forEach fuel today cs objects = Some (cs ++ cs')%list
      /\ List.map fullName cs' = List.map fullName_of (with_bday objects)
      /\ List.map birthday cs' = List.map birthday_in (with_bday objects)
      /\ Forall (contact_sound today) cs'.
Proof.
  induction objects as [|data rest IH]; intros cs fuel Hfuel.
  - exists []. cbn. rewrite app_nil_r. repeat split. constructor.
  - assert (H1 : (enough_fuel today (birthday_in data) <= fuel)%nat)
      by (unfold fuel_for in Hfuel; cbn [List.map] in Hfuel;
          change (list_max (?a :: ?l)) with (Nat.max a (list_max l)) in Hfuel; lia).
    assert (H2 : (fuel_for today rest <= fuel)%nat)
      by (unfold fuel_for in *; cbn [List.map] in Hfuel;
          change (list_max (?a :: ?l)) with (Nat.max a (list_max l)) in Hfuel; lia).
    cbn [forEach with_bday List.filter].
    destruct (JsString.includes "BDAY" data) eqn:Hi.
    + destruct (visit_pushes fuel today cs data Hi H1) as (c & Hv & Hn & Hb & Hc).
      rewrite Hv.
      destruct (IH (cs ++ [c])%list fuel H2) as (cs' & Hf & Hns & Hbs & Hall).
      exists (c :: cs'). rewrite Hf, <- app_assoc. cbn [app List.map].
      fold (with_bday rest). rewrite Hn, Hb, Hns, Hbs.
      repeat split. constructor; assumption.
    + rewrite (visit_without_bday fuel today cs data Hi).
      apply IH. exact H2.
Qed.

(** X6.  With enough fuel for its records, [fetchContacts] returns one
    contact for each record that contains [BDAY], in the order of the
    address books and of their objects, with the name and the birthday
    string read from that record; records without [BDAY] leave no trace. *)
Theorem fetchContacts_one_per_bday_record (today : date) (addressBooks : list (list string))
    (fuel : nat) :
  (fuel_for today (List.concat addressBooks) <= fuel)%nat ->
  exists cs,
    fetchContacts fuel today (Resolved addressBooks) = Some cs
    /\ List.map fullName cs = List.map fullName_of (with_bday (List.concat addressBooks))
    /\ List.map birthday cs = List.map birthday_in (with_bday (List.concat addressBooks)).
Proof.
  intros Hfuel.
  destruct (forEach_contacts today (List.concat addressBooks) [] fuel Hfuel)
    as (cs & Hf & Hn & Hb & _).
  exists cs. cbn [fetchContacts]. rewrite Hf. repeat split; assumption.
Qed.

(** The theorem at two address books with four records. *)
Lemma fetchContacts_one_per_bday_record_witness :
  exists cs,
    fetchContacts 40 (mkDate 2024 5 1)
      (Resolved [[vcard "Ann" "--0615"; vcard_without_bday "Dan"];
                 [vcard "Eve" "1990"; vcard "Ben" "19900615"]]) = Some cs
    /\ List.map fullName cs
       = List.map fullName_of
           (with_bday (List.concat [[vcard "Ann" "--0615"; vcard_without_bday "Dan"];
                                    [vcard "Eve" "1990"; vcard "Ben" "19900615"]]))
    /\ List.map birthday cs
       = List.map birthday_in
           (with_bday (List.concat [[vcard "Ann" "--0615"; vcard_without_bday "Dan"];
                                    [vcard "Eve" "1990"; vcard "Ben" "19900615"]])).
Proof.
  apply (fetchContacts_one_per_bday_record (mkDate 2024 5 1)
           [[vcard "Ann" "--0615"; vcard_without_bday "Dan"];
            [vcard "Eve" "1990"; vcard "Ben" "19900615"]] 40).
  vm_compute. repeat constructor.
Defined.

Lemma parse_stored (today : date) (b : string) :
  1000 <= dy today <= 9999 -> stored_birthday b ->
  (Dayjs.parse (birthday_arg today b) = None <-> b = "").
Proof.
  intros Hy [ | y1 y2 y3 y4 m1 m2 d1 d2 D | m1 m2 d1 d2 D].
  - split; reflexivity.
  - split_digits D. rewrite birthday_arg_iso, parse_iso by assumption.
    split; discriminate.
  - destruct (toString_year (dy today) Hy) as (a & b0 & c & d & Hs & Ha & Hb & Hc & Hd & _).
    split_digits D.
    rewrite birthday_arg_yearless, Hs, parse_compact by assumption.
    split; discriminate.
Qed.

(** X7.  With [today] in a year of four digits, every contact
    [fetchContacts] returns has a birthday string that is empty, of the
    form [YYYY-MM-DD] or of the form [--MMDD]; its next birthday is an
    Invalid Date exactly when that string is empty, and is otherwise on or
    after [today]. *)
Theorem fetchContacts_contacts_sound (today : date) (addressBooks : list (list string))
    (fuel : nat) :
  1000 <= dy today <= 9999 ->
  (fuel_for today (List.concat addressBooks) <= fuel)%nat ->
  exists cs,
    fetchContacts fuel today (Resolved addressBooks) = Some cs
    /\ Forall (fun c =>
                 stored_birthday (birthday c)
                 /\ (nextBirthday (spread c) = None <-> birthday c = "")
                 /\ (forall r, nextBirthday (spread c) = Some r -> date_leb today r = true))
              cs.
Proof.
  intros Hy Hfuel.
  destruct (forEach_contacts today (List.concat addressBooks) [] fuel Hfuel)
    as (cs & Hf & _ & _ & Hall).
  exists cs. cbn [fetchContacts]. rewrite Hf. split; [reflexivity|].
  cbn [app]. revert Hall. apply Forall_impl.
  intros c (Hs & Hge & Hnone). split; [exact Hs|]. split; [|exact Hge].
  rewrite Hnone. apply parse_stored; assumption.
Qed.

(** The theorem at two address books with four records. *)
Lemma fetchContacts_contacts_sound_witness :
  exists cs,
    fetchContacts 40 (mkDate 2024 5 1)
      (Resolved [[vcard "Ann" "--0615"; vcard_without_bday "Dan"];
                 [vcard "Eve" "1990"; vcard "Ben" "19900615"]]) = Some cs
    /\ Forall (fun c =>
                 stored_birthday (birthday c)
                 /\ (nextBirthday (spread c) = None <-> birthday c = "")
                 /\ (forall r, nextBirthday (spread c) = Some r
                               -> date_leb (mkDate 2024 5 1) r = true))
              cs.
Proof.
  apply (fetchContacts_contacts_sound (mkDate 2024 5 1)
           [[vcard "Ann" "--0615"; vcard_without_bday "Dan"];
            [vcard "Eve" "1990"; vcard "Ben" "19900615"]] 40).
  - cbn. lia.
  - vm_compute. repeat constructor.
Defined.

(** ** This year or the next *)

Lemma date_ltb_irrefl (d : date) : date_ltb d d = false.
Proof.
  unfold date_ltb. rewrite !Z.ltb_irrefl, !Z.eqb_refl. reflexivity.
Qed.

(** X10.  A birthday without a year, [--MMDD], with a month and day of
    the calendar other than 29 February, and [today] in a year of four
    digits: while the day has not passed this year the next birthday is
    this year's and the age is 0; once it has passed, the next birthday is
    next year's and the age is 1. *)
Theorem yearless_age_zero_or_one (today : date) (m1 m2 d1 d2 : ascii) (fuel : nat) :
  1000 <= dy today <= 9999 ->
  JsString.all_digits (two m1 m2 ++ two d1 d2) = true ->
  let m := JsString.number (two m1 m2) - 1 in
  let d := JsString.number (two d1 d2) in
  valid_date (mkDate (dy today) m d) -> feb29 (mkDate (dy today) m d) = false ->
  (1 <= fuel)%nat ->
  getNextBirthday fuel today (yearless m1 m2 d1 d2)
  = Some (if date_ltb (mkDate (dy today) m d) today
          then mkOccurrence (Some (mkDate (dy today + 1) m d)) (Some 1)
          else mkOccurrence (Some (mkDate (dy today) m d)) (Some 0)).
Proof.
  intros Hy D m d Hv Hf Hfuel.
  pose proof (birthdayDate_of_yearless today m1 m2 d1 d2 Hy D) as Hp.
  unfold birthdayDate_of_match in Hp.
  change (birthday_of_match (Some (yearless m1 m2 d1 d2))) with (yearless m1 m2 d1 d2) in Hp.
  fold m d in Hp. rewrite newDate_valid in Hp by (try exact Hv; lia).
  clearbody m d.
  pose proof (getNextBirthday_run_steady today (yearless m1 m2 d1 d2)
                (mkDate (dy today) m d) Hp Hv Hf fuel) as H.
  unfold occurrence_year, target_year in H. cbn [dy dM dD] in H.
  unfold getNextBirthday.
  destruct (date_ltb (mkDate (dy today) m d) today) eqn:E; try rewrite E in H.
  - replace (Z.max (dy today) (dy today + 1)) with (dy today + 1) in H by lia.
    replace (dy today + 1 - dy today) with 1 in H by lia.
    rewrite (H Hfuel). reflexivity.
  - replace (Z.max (dy today) (dy today)) with (dy today) in H by lia.
    replace (dy today - dy today) with 0 in H by lia.
    rewrite (H (Nat.le_0_l fuel)). reflexivity.
Qed.

(** The theorem at [--0115] with [today] 1 June 2024. *)
Lemma yearless_age_zero_or_one_witness :
  getNextBirthday 1 (mkDate 2024 5 1) "--0115"
  = Some (mkOccurrence (Some (mkDate 2025 0 15)) (Some 1)).
Proof.
  apply (yearless_age_zero_or_one (mkDate 2024 5 1) "0" "1" "1" "5" 1).
  - cbn. lia.
  - reflexivity.
  - unfold valid_date. vm_compute. repeat split; discriminate.
  - reflexivity.
  - lia.
Defined.

(** ** The age of a birthday on 29 February *)

Lemma valueOf_same_month (y m d d' : Z) :
  valueOf (mkDate y m d) - valueOf (mkDate y m d') = (d - d') * msPerDay.
Proof. unfold valueOf, dayNumber. cbn [dy dM dD]. lia. Qed.

Lemma valueOf_feb_jan (y d : Z) :
  valueOf (mkDate y 1 d) - valueOf (mkDate y 0 d) = 31 * msPerDay.
Proof.
  unfold valueOf, dayNumber. cbn [dy dM dD].
  change (days_before y (Z.to_nat 1)) with (0 + daysInMonth y 0).
  change (days_before y (Z.to_nat 0)) with 0.
  change (daysInMonth y 0) with 31. lia.
Qed.

(** From 29 February of [y] to 28 February of a later year [Y], [diff]
    counts the years between when [Y] is not a leap year, and one less
    when it is. *)
Lemma absFloor_eq (q q' : Q) (z : Z) :
  (q == q')%Q -> Dayjs.absFloor q' = z -> Dayjs.absFloor q = z.
Proof.
  intros E H. rewrite <- H. unfold Dayjs.absFloor.
  rewrite (Qleb_comp 0%Q 0%Q (Qeq_refl 0%Q) q q' E).
  rewrite (Qfloor_comp q q' E), (Qceiling_comp q q' E). reflexivity.
Qed.

Lemma diff_years_feb28_feb29 (Y y : Z) :
  y < Y ->
  Dayjs.diff_years (Some (mkDate Y 1 28)) (Some (mkDate y 1 29))
  = if is_leap Y then Y - y - 1 else Y - y.
Proof.
  intros Hlt. unfold Dayjs.diff_years, Dayjs.monthDiff. cbn [dD].
  change (28 <? 29) with true. cbv iota.
  unfold Dayjs.monthDiff_anchored. cbn [dy dM].
  rewrite (add_months_whole_years y Y 1 29) by lia.
  destruct (is_leap Y) eqn:L.
  - assert (A : Dayjs.clamp_day Y 1 29 = mkDate Y 1 29)
      by (unfold Dayjs.clamp_day, daysInMonth; cbn; rewrite L; reflexivity).
    rewrite !A.
    rewrite (valueOf_same_month Y 1 28 29).
    change ((28 - 29) * msPerDay <? 0) with true. cbv iota.
    replace (Dayjs.add_months (mkDate y 1 29) ((Y - y) * 12 + (1 - 1) + -1))
      with (mkDate Y 0 29).
    2:{ unfold Dayjs.add_months, carry_month, Dayjs.clamp_day. cbn [dy dM dD].
        replace (y + (1 + ((Y - y) * 12 + (1 - 1) + -1)) / 12) with Y
          by (Z.div_mod_to_equations; lia).
        replace ((1 + ((Y - y) * 12 + (1 - 1) + -1)) mod 12) with 0
          by (Z.div_mod_to_equations; lia).
        reflexivity. }
    rewrite (valueOf_feb_jan Y 29).
    replace ((Y - y) * 12 + (1 - 1)) with (12 * (Y - y)) by lia.
    assert (Hn : 1 <= Y - y) by lia. revert Hn.
    generalize (Y - y) as n. intros n Hn.
    apply (absFloor_eq _ (inject_Z n - (1 # 372))%Q).
    + rewrite inject_Z_mult.
      change (inject_Z ((28 - 29) * msPerDay)) with (- (86400000 # 1))%Q.
      change (inject_Z (31 * msPerDay)) with (2678400000 # 1)%Q.
      change (inject_Z 12) with 12%Q. field.
    + unfold Dayjs.absFloor, Qle_bool, Qfloor, Qceiling, Qminus, Qplus, Qopp, inject_Z.
      cbn [Qnum Qden negb Pos.mul].
      match goal with
      | |- context [negb (?a <=? ?b)] => destruct (Z.leb_spec a b) as [H|H]; [|lia]
      end.
      cbn [negb]. Z.div_mod_to_equations. lia.
  - assert (A : Dayjs.clamp_day Y 1 29 = mkDate Y 1 28)
      by (unfold Dayjs.clamp_day, daysInMonth; cbn; rewrite L; reflexivity).
    rewrite !A. rewrite !Z.sub_diag. change (0 <? 0) with false. cbv iota.
    apply (absFloor_eq _ (inject_Z (Y - y))).
    + match goal with
      | |- context [(inject_Z 0 / inject_Z ?d)%Q] => generalize d as den
      end.
      intros den.
      setoid_replace (inject_Z 0 / inject_Z den)%Q with 0%Q
        by (unfold Qdiv; change (inject_Z 0) with 0%Q; ring).
      replace ((Y - y) * 12 + 0) with ((Y - y) * 12) by lia.
      rewrite inject_Z_mult. change (inject_Z 12) with 12%Q. field.
    + apply absFloor_inject_Z. reflexivity.
Qed.

(** X11.  A birthday on 29 February with a known birth year that has
    passed: the next birthday is 28 February of this year, or of the next
    when that day has passed too, and the age is the number of years
    between when that year is not a leap year, and one less when it is. *)
Theorem feb29_age (today : date) (s : string) (y : Z) (fuel : nat) :
  JsString.startsWith "--" s = false ->
  Dayjs.parse s = Some (mkDate y 1 29) ->
  is_leap y = true ->
  date_ltb (mkDate y 1 29) today = true ->
  let Y := if date_ltb (mkDate (dy today) 1 28) today then dy today + 1 else dy today in
  (Z.to_nat (Y - y) <= fuel)%nat ->
  getNextBirthday fuel today s
  = Some (mkOccurrence (Some (mkDate Y 1 28))
                       (Some (if is_leap Y then Y - y - 1 else Y - y))).
Proof.
  intros Hs Hp Hl Hb Y Hfuel.
  change Y with (target_year today 1 28) in *. clear Y.
  destruct (advance_feb29 today y Hl Hb) as [Hlt Hrun].
  unfold getNextBirthday, getNextBirthday_run, birthday_arg.
  rewrite Hs, Hp, (Hrun fuel Hfuel). cbn [option_map fst].
  rewrite (diff_years_feb28_feb29 _ y Hlt). reflexivity.
Qed.

(** The theorem at the birthday 1992-02-29 with [today] 10 February
    2024. *)
Lemma feb29_age_witness :
  getNextBirthday 32 (mkDate 2024 1 10) "1992-02-29"
  = Some (mkOccurrence (Some (mkDate 2024 1 28))
                       (Some (if is_leap 2024 then 2024 - 1992 - 1 else 2024 - 1992))).
Proof.
  apply (feb29_age (mkDate 2024 1 10) "1992-02-29" 1992 32);
    first [reflexivity | cbn; lia].
Defined.

(** ** The day after *)

Lemma dayFromYear_next (y : Z) :
  dayFromYear (y + 1) = dayFromYear y + (if is_leap y then 366 else 365).
Proof.
  unfold dayFromYear, is_leap.
  destruct (Z.eqb_spec (y mod 4) 0) as [E4|E4];
    destruct (Z.eqb_spec (y mod 100) 0) as [E100|E100];
    destruct (Z.eqb_spec (y mod 400) 0) as [E400|E400];
    cbn [andb orb negb]; Z.div_mod_to_equations; lia.
Qed.

Lemma days_before_december (y : Z) :
  days_before y 11 = if is_leap y then 335 else 334.
Proof.
  cbn [days_before Z.of_nat]. unfold daysInMonth. cbn.
  destruct (is_leap y); reflexivity.
Qed.

Lemma days_before_next (y m : Z) :
  0 <= m -> days_before y (Z.to_nat (m + 1)) = days_before y (Z.to_nat m) + daysInMonth y m.
Proof.
  intros Hm. replace (Z.to_nat (m + 1)) with (S (Z.to_nat m)) by lia.
  cbn [days_before]. rewrite Z2Nat.id by exact Hm. reflexivity.
Qed.

(** [add(1, 'day')] of a date of the calendar is the date of the calendar
    one day later. *)
Lemma add_day_next (d : date) :
  valid_date d ->
  valid_date (Dayjs.add_day d) /\ dayNumber (Dayjs.add_day d) = dayNumber d + 1.
Proof.
  destruct d as [y m dd]. intros [Hm Hd]. cbn [dy dM dD] in *.
  unfold Dayjs.add_day. cbn [dy dM dD carry_day].
  destruct (Z.ltb_spec (dd + 1) 1); [lia|].
  destruct (Z.ltb_spec (daysInMonth y m) (dd + 1)) as [L|G].
  - assert (dd = daysInMonth y m) by lia. subst dd.
    replace (daysInMonth y m + 1 - daysInMonth y m) with 1 by lia.
    destruct (Z.eq_dec m 11) as [->|N].
    + change (carry_month y (11 + 1)) with (y + 1, 0).
      change (1 <? 1) with false. cbv iota.
      pose proof (daysInMonth_bounds (y + 1) 0).
      destruct (Z.ltb_spec (daysInMonth (y + 1) 0) 1); [lia|].
      split; [unfold valid_date; cbn [dy dM dD]; lia|].
      unfold dayNumber. cbn [dy dM dD].
      rewrite dayFromYear_next.
      change (Z.to_nat 0) with 0%nat. change (Z.to_nat 11) with 11%nat.
      rewrite days_before_december. change (daysInMonth y 11) with 31.
      cbn [days_before]. destruct (is_leap y); lia.
    + rewrite carry_month_in_year by lia.
      change (1 <? 1) with false. cbv iota.
      pose proof (daysInMonth_bounds y (m + 1)).
      destruct (Z.ltb_spec (daysInMonth y (m + 1)) 1); [lia|].
      split; [unfold valid_date; cbn [dy dM dD]; lia|].
      unfold dayNumber. cbn [dy dM dD].
      rewrite days_before_next by lia. lia.
  - split; [unfold valid_date; cbn [dy dM dD]; lia|].
    unfold dayNumber. cbn [dy dM dD]. lia.
Qed.

(** X12.  For a contact with a next birthday of the calendar, the event
    starts on that day, with the month counted from 1, and ends on the
    calendar day after it, also across the end of a month or of a year. *)
Theorem event_spans_one_day (c : contact) (d : date) :
  nextBirthday (spread c) = Some d -> valid_date d ->
  start (event_of c) = [Some (dy d); Some (dM d + 1); Some (dD d)]
  /\ 1 <= dM d + 1 <= 12
  /\ exists e,
       end_ (event_of c) = [Some (dy e); Some (dM e + 1); Some (dD e)]
       /\ valid_date e /\ dayNumber e = dayNumber d + 1.
Proof.
  intros Hn Hv. unfold event_of. cbn [start end_]. rewrite Hn.
  split; [reflexivity|]. split; [destruct Hv; lia|].
  exists (Dayjs.add_day d). split; [reflexivity|]. apply add_day_next. exact Hv.
Qed.

(** The theorem at a birthday on 31 December. *)
Lemma event_spans_one_day_witness :
  start (event_of (mkContact "Ann" "1990-12-31"
                     (mkOccurrence (Some (mkDate 2024 11 31)) (Some 34))))
  = [Some 2024; Some (11 + 1); Some 31]
  /\ 1 <= 11 + 1 <= 12
  /\ exists e,
       end_ (event_of (mkContact "Ann" "1990-12-31"
                         (mkOccurrence (Some (mkDate 2024 11 31)) (Some 34))))
       = [Some (dy e); Some (dM e + 1); Some (dD e)]
       /\ valid_date e /\ dayNumber e = dayNumber (mkDate 2024 11 31) + 1.
Proof.
  apply (event_spans_one_day
           (mkContact "Ann" "1990-12-31" (mkOccurrence (Some (mkDate 2024 11 31)) (Some 34)))
           (mkDate 2024 11 31)).
  - reflexivity.
  - unfold valid_date. cbn. lia.
Defined.

(** ** Every date returned is a date of the calendar *)

Lemma carry_month_range (y m : Z) : 0 <= snd (carry_month y m) <= 11.
Proof. unfold carry_month. cbn [snd]. pose proof (Z.mod_pos_bound m 12). lia. Qed.

Lemma carry_day_valid (fuel : nat) :
  forall y m d, 0 <= m <= 11 -> 1 <= d <= 28 * Z.of_nat fuel ->
                valid_date (carry_day fuel y m d).
Proof.
  induction fuel as [|fuel IH]; intros y m d Hm Hd; [lia|].
  cbn [carry_day]. destruct (Z.ltb_spec d 1); [lia|].
  destruct (Z.ltb_spec (daysInMonth y m) d) as [L|G].
  - pose proof (carry_month_range y (m + 1)) as R.
    destruct (carry_month y (m + 1)) as [y' m']. cbn [snd] in R.
    pose proof (daysInMonth_bounds y m).
    apply IH; [exact R | lia].
  - unfold valid_date. cbn [dy dM dD]. lia.
Qed.

(** [new Date(y, m, d)] with a day that is not negative is a date of the
    calendar. *)
Lemma newDate_is_valid (y m d : Z) : 0 <= d -> valid_date (newDate y m d).
Proof.
  intros Hd. unfold newDate.
  set (y0 := if (0 <=? y) && (y <=? 99) then 1900 + y else y).
  pose proof (carry_month_range y0 m) as R.
  destruct (carry_month y0 m) as [y1 m1]. cbn [snd] in R.
  destruct (Z.eq_dec d 0) as [->|N].
  - change (S (Z.to_nat (Z.abs 0))) with 1%nat. cbn [carry_day].
    change (0 <? 1) with true. cbv iota.
    pose proof (carry_month_range y1 (m1 - 1)) as R'.
    destruct (carry_month y1 (m1 - 1)) as [y2 m2]. cbn [snd] in R'.
    pose proof (daysInMonth_bounds y2 m2).
    unfold valid_date. cbn [dy dM dD]. lia.
  - apply carry_day_valid; [exact R | lia].
Qed.

Lemma number_acc_nonneg (s : string) :
  forall acc, 0 <= acc -> JsString.all_digits s = true -> 0 <= JsString.number_acc acc s.
Proof.
  induction s as [|c s IH]; intros acc Hacc H; [exact Hacc|].
  cbn [JsString.all_digits] in H. apply andb_true_iff in H. destruct H as [Hc Hs].
  cbn [JsString.number_acc]. apply IH; [|exact Hs].
  unfold JsString.is_digit in Hc. apply andb_true_iff in Hc. destruct Hc as [Hlo _].
  apply Nat.leb_le in Hlo. unfold JsString.digit_val. lia.
Qed.

Lemma all_digits_substring (s : string) :
  forall n k, JsString.all_digits s = true -> JsString.all_digits (substring n k s) = true.
Proof.
  induction s as [|c s IH]; intros n k H.
  - destruct n, k; reflexivity.
  - cbn [JsString.all_digits] in H. apply andb_true_iff in H. destruct H as [Hc Hs].
    destruct n as [|n].
    + destruct k as [|k]; [reflexivity|].
      cbn [substring JsString.all_digits]. rewrite Hc. apply IH. exact Hs.
    + cbn [substring]. apply IH. exact Hs.
Qed.

Lemma substring_from_drop (s : string) :
  forall n k, substring n k s = substring 0 k (JsString.drop n s).
Proof.
  induction s as [|c s IH]; intros n k.
  - destruct n, k; reflexivity.
  - destruct n as [|n]; [reflexivity|]. cbn [substring JsString.drop]. apply IH.
Qed.

(** The day group [REGEX_PARSE] hands over is a number that is not
    negative. *)
Lemma parse_groups_day (s y m d : string) :
  Dayjs.parse_groups s = Some (y, m, d) -> 0 <= JsString.number d.
Proof.
  unfold Dayjs.parse_groups, JsString.digits_at, JsString.substr.
  destruct ((String.length s =? 10)%nat && _ && _ && _ && _ && _) eqn:E.
  - intros H. injection H as _ _ <-.
    apply andb_true_iff in E. destruct E as [_ E].
    apply andb_true_iff in E. destruct E as [_ E].
    rewrite substring_from_drop. apply number_acc_nonneg; [lia | exact E].
  - destruct ((String.length s =? 8)%nat && JsString.all_digits s) eqn:E8; [|discriminate].
    intros H. injection H as _ _ <-.
    apply andb_true_iff in E8. destruct E8 as [_ E8].
    apply number_acc_nonneg; [lia|]. apply all_digits_substring. exact E8.
Qed.

Lemma parse_is_valid (s : string) (d : date) : Dayjs.parse s = Some d -> valid_date d.
Proof.
  unfold Dayjs.parse.
  destruct (Dayjs.parse_groups s) as [[[y m] dd]|] eqn:E; [|discriminate].
  intros H. injection H as <-. apply newDate_is_valid.
  apply (parse_groups_day s y m dd E).
Qed.

Lemma advance_keeps_valid (today : date) (fuel : nat) :
  forall bd it r n,
    valid_date bd -> advance fuel today (Some bd) it = Some (Some r, n) -> valid_date r.
Proof.
  induction fuel as [|fuel IH]; intros bd it r n Hv H; cbn [advance Dayjs.isBefore] in H.
  - destruct (date_ltb bd today); [discriminate H|]. injection H as <- _. exact Hv.
  - destruct (date_ltb bd today).
    + cbn [Dayjs.add_years] in H. eapply IH; [|exact H].
      destruct Hv as [Hm Hd]. unfold Dayjs.clamp_day, valid_date. cbn [dy dM dD].
      pose proof (daysInMonth_bounds (dy bd + 1) (dM bd)). lia.
    + injection H as <- _. exact Hv.
Qed.

(** X13.  Whatever the digits of the birthday are, a date that
    [getNextBirthday] returns is a date of the calendar: its month is one
    of the twelve and its day lies within that month. *)
Theorem getNextBirthday_date_is_valid (fuel : nat) (today : date) (s : string)
    (o : occurrence) (r : date) :
  getNextBirthday fuel today s = Some o -> nextBirthday o = Some r -> valid_date r.
Proof.
  unfold getNextBirthday, getNextBirthday_run.
  destruct (Dayjs.parse (birthday_arg today s)) as [bd|] eqn:Hp.
  - destruct (advance fuel today (Some bd) 0) as [[[r'|] n]|] eqn:Ha; cbn; intros H Hr.
    + injection H as <-. cbn in Hr. injection Hr as <-.
      apply (advance_keeps_valid today fuel bd 0%nat r' n); [|exact Ha].
      apply (parse_is_valid _ bd Hp).
    + injection H as <-. discriminate Hr.
    + discriminate H.
  - rewrite advance_stop by reflexivity. cbn. intros H Hr.
    injection H as <-. discriminate Hr.
Qed.

(** The theorem at a birthday whose month and day are out of range. *)
Lemma getNextBirthday_date_is_valid_witness : valid_date (mkDate 2025 1 14).
Proof.
  apply (getNextBirthday_date_is_valid 40 (mkDate 2024 5 1) "1990-13-45"
           (mkOccurrence (Some (mkDate 2025 1 14)) (Some 34)) (mkDate 2025 1 14));
    reflexivity.
Defined.

(** ** The name *)

Lemma take_line_rest (s : string) :
  no_line_break (Regex.take_line s) = true
  /\ exists post, s = Regex.take_line s ++ post /\ at_line_end post = true.
Proof.
  induction s as [|c s [IH1 (post & IH2 & IH3)]].
  - split; [reflexivity|]. exists "". split; reflexivity.
  - cbn [Regex.take_line]. destruct (JsString.is_line_terminator c) eqn:E.
    + split; [reflexivity|]. exists (String c s). split; [reflexivity | exact E].
    + split; [cbn [no_line_break]; rewrite E; exact IH1|].
      exists post. split; [cbn [append]; rewrite <- IH2; reflexivity | exact IH3].
Qed.

Lemma fn_at_prefix (s g : string) :
  Regex.fn_at s = Some g ->
  g <> "" /\ no_line_break g = true
  /\ exists post, s = "FN:" ++ g ++ post /\ at_line_end post = true.
Proof.
  unfold Regex.fn_at, JsString.startsWith. intros H.
  destruct (String.prefix "FN:" s) eqn:P; [|discriminate H].
  destruct (take_line_rest (JsString.drop 3 s)) as [Hn (post & Hs & Hp)].
  destruct (Regex.take_line (JsString.drop 3 s)) as [|c t] eqn:E; [discriminate H|].
  injection H as <-. split; [discriminate|]. split; [exact Hn|].
  exists post. split; [|exact Hp].
  rewrite (prefix_append "FN:" s P). cbn [String.length]. rewrite Hs at 1. reflexivity.
Qed.

Lemma trimStart_props (s : string) :
  no_line_break s = true ->
  no_line_break (JsString.trimStart s) = true
  /\ starts_with_space (JsString.trimStart s) = false.
Proof.
  induction s as [|c s IH]; intros H; [split; reflexivity|].
  cbn [no_line_break] in H. apply andb_true_iff in H. destruct H as [Hc Hs].
  cbn [JsString.trimStart]. destruct (JsString.is_space c) eqn:E.
  - apply IH. exact Hs.
  - split; [cbn [no_line_break]; rewrite Hc, Hs; reflexivity | exact E].
Qed.

Lemma trimEnd_props (s : string) :
  no_line_break s = true ->
  no_line_break (JsString.trimEnd s) = true
  /\ ends_with_space (JsString.trimEnd s) = false
  /\ (starts_with_space s = false -> starts_with_space (JsString.trimEnd s) = false).
Proof.
  induction s as [|c s IH]; intros H; [repeat split|].
  cbn [no_line_break] in H. apply andb_true_iff in H. destruct H as [Hc Hs].
  destruct (IH Hs) as (I1 & I2 & _).
  cbn [JsString.trimEnd]. destruct (JsString.trimEnd s) as [|c' t].
  - destruct (JsString.is_space c) eqn:E.
    + repeat split.
    + split; [cbn [no_line_break]; rewrite Hc; reflexivity|].
      split; [exact E | intros _; exact E].
  - split; [cbn [no_line_break] in *; rewrite Hc; exact I1|].
    split; [exact I2 | intros F; exact F].
Qed.

(** X15.  A request at most one day ([stdTTL]) after a refresh has set
    the cache is answered with status 200 and the serialisation that
    refresh stored, whatever was cached before, and leaves the cache as it
    is; a request later than that is answered with status 404 and finds
    the entry deleted; and so is a request before any refresh. *)
Theorem feed_served_for_one_day
    (icsResult ambient : Type) (ics_createEvents : ambient -> list eventAttributes -> icsResult)
    (now now' : Z) (fuel : nat) (today : date) (env : ambient)
    (a : account) (before after : timed_cache icsResult) (contacts : list contact) :
  0 <= now ->
  fetchContacts fuel today a = Some contacts ->
  updateCache_at icsResult ambient ics_createEvents now fuel today env a before = Some after ->
  (now' <= now + 86400000 ->
   get_calendar_at icsResult now' after
   = (Status200 icsResult "text/calendar; charset=utf-8"
        (ics_createEvents env (List.map event_of contacts)), after))
  /\ (now + 86400000 < now' ->
      get_calendar_at icsResult now' after = (Status404 icsResult "Calendar not found", None))
  /\ get_calendar_at icsResult now' None = (Status404 icsResult "Calendar not found", None).
Proof.
  intros Hnow Hf Hu. unfold updateCache_at in Hu. rewrite Hf in Hu.
  injection Hu as <-. unfold get_calendar_at, cache_get, cache_set, getICSString.
  cbn [livetime value]. change (stdTTL * 1000) with 86400000.
  destruct (Z.eqb_spec (now + 86400000) 0); [lia|]. cbn [negb andb].
  split; [|split].
  - intros H. destruct (Z.ltb_spec (now + 86400000) now'); [lia | reflexivity].
  - intros H. destruct (Z.ltb_spec (now + 86400000) now'); [reflexivity | lia].
  - reflexivity.
Qed.

(** The theorem at a serialiser that counts the events, after a refresh
    whose fetch was rejected. *)
Lemma feed_served_for_one_day_witness :
  (1000 <= 0 + 86400000 ->
   get_calendar_at nat 1000 (cache_set nat 0 0%nat)
   = (Status200 nat "text/calendar; charset=utf-8" 0%nat, cache_set nat 0 0%nat))
  /\ (0 + 86400000 < 1000 ->
      get_calendar_at nat 1000 (cache_set nat 0 0%nat)
      = (Status404 nat "Calendar not found", None))
  /\ get_calendar_at nat 1000 None = (Status404 nat "Calendar not found", None).
Proof.
  apply (feed_served_for_one_day nat unit (fun _ evs => List.length evs)
           0 1000 0 (mkDate 2024 5 1) tt Rejected None (cache_set nat 0 0%nat) []).
  - lia.
  - reflexivity.
  - reflexivity.
Defined.

(** ** The loop and the age in the time zone of the process *)

Lemma zoned_advance_stop (dim : Z -> Z -> Z) (fuel : nat) (today : date) (nb : Dayjs.t)
    (it : nat) :
  Dayjs.isBefore nb today = false -> Zoned.advance dim fuel today nb it = Some (nb, it).
Proof.
  intros H. destruct fuel; cbn [Zoned.advance]; rewrite H; reflexivity.
Qed.

(** In every zone each pass adds one to the year, so the loop is left, on
    a day that is not before [today]. *)
Lemma zoned_advance_terminates (dim : Z -> Z -> Z) (today : date) (k : nat) :
  forall (bd : date) (fuel it : nat),
    dy today + 1 - dy bd <= Z.of_nat k -> (k <= fuel)%nat ->
    exists r n, Zoned.advance dim fuel today (Some bd) it = Some (Some r, n)
                /\ date_ltb r today = false.
Proof.
  induction k as [|k IH]; intros bd fuel it Hk Hfuel.
  - exists bd, it.
    assert (E : date_ltb bd today = false).
    { destruct (date_ltb bd today) eqn:E; [|reflexivity].
      apply date_ltb_year_le in E. lia. }
    split; [apply zoned_advance_stop; exact E | exact E].
  - destruct (date_ltb bd today) eqn:E.
    + destruct fuel as [|fuel]; [lia|].
      cbn [Zoned.advance Dayjs.isBefore]. rewrite E. cbn [Zoned.add_years].
      apply IH; [unfold Zoned.clamp_day; cbn [dy]; lia | lia].
    + exists bd, it. split; [apply zoned_advance_stop; exact E | exact E].
Qed.

Lemma zoned_advance_more_fuel (dim : Z -> Z -> Z) (today : date) (fuel fuel' : nat) :
  (fuel <= fuel')%nat ->
  forall nb it r, Zoned.advance dim fuel today nb it = Some r ->
                  Zoned.advance dim fuel' today nb it = Some r.
Proof.
  revert fuel'. induction fuel as [|fuel IH]; intros fuel' Hle nb it r H.
  - cbn [Zoned.advance] in H. destruct (Dayjs.isBefore nb today) eqn:E; [discriminate H|].
    rewrite zoned_advance_stop by exact E. exact H.
  - destruct fuel' as [|fuel']; [lia|].
    cbn [Zoned.advance] in *. destruct (Dayjs.isBefore nb today); [|exact H].
    apply (IH fuel'); [lia | exact H].
Qed.

(** Where the zone gives the months on the way room for the day, the loop
    walks year by year up to the target year and stops there. *)
Lemma zoned_advance_steady (dim : Z -> Z -> Z) (today : date) (m d : Z) :
  forall (k fuel : nat) (y : Z) (it : nat),
    (forall y', y < y' <= target_year today m d -> d <= dim y' m) ->
    target_year today m d = y + Z.of_nat k ->
    (k <= fuel)%nat ->
    Zoned.advance dim fuel today (Some (mkDate y m d)) it
    = Some (Some (mkDate (target_year today m d) m d), (it + k)%nat).
Proof.
  induction k as [|k IH]; intros fuel y it Hfit HY Hfuel.
  - replace y with (target_year today m d) by lia.
    rewrite zoned_advance_stop by (cbn [Dayjs.isBefore]; apply target_year_reached).
    rewrite Nat.add_0_r. reflexivity.
  - destruct fuel as [|fuel]; [lia|].
    rewrite Nat2Z.inj_succ in HY.
    cbn [Zoned.advance Dayjs.isBefore Zoned.add_years dy dM dD].
    rewrite (target_year_first today m d y) by lia.
    unfold Zoned.clamp_day. rewrite Z.min_l by (apply Hfit; lia).
    rewrite (IH fuel (y + 1) (S it)) by (try (intros y' Hy'; apply Hfit); lia).
    rewrite Nat.add_succ_r. reflexivity.
Qed.

Lemma zoned_add_months_whole_years (dim : Z -> Z -> Z) (Y y m d : Z) :
  0 <= m <= 11 ->
  Zoned.add_months dim (mkDate Y m d) ((y - Y) * 12 + (m - m)) = Zoned.clamp_day dim y m d.
Proof.
  intros Hm. unfold Zoned.add_months, carry_month. cbn [dy dM dD].
  replace (Y + (m + ((y - Y) * 12 + (m - m))) / 12) with y
    by (Z.div_mod_to_equations; lia).
  replace ((m + ((y - Y) * 12 + (m - m))) mod 12) with m
    by (Z.div_mod_to_equations; lia).
  reflexivity.
Qed.

(** Between two dates with the same month and day, [diff] in years is the
    difference of the years, where the zone gives the month of the earlier
    one room for the day. *)
Lemma zoned_diff_years_same_day (dim : Z -> Z -> Z) (Y y m d : Z) :
  0 <= m <= 11 -> d <= dim y m ->
  Zoned.diff_years dim (Some (mkDate Y m d)) (Some (mkDate y m d)) = Y - y.
Proof.
  intros Hm Hd. unfold Zoned.diff_years, Zoned.monthDiff.
  cbn [dD]. rewrite Z.ltb_irrefl.
  unfold Zoned.monthDiff_anchored. cbn [dy dM].
  rewrite zoned_add_months_whole_years by assumption.
  unfold Zoned.clamp_day at 1 2 3. rewrite Z.min_l by assumption.
  rewrite !Z.sub_diag. change (0 <? 0) with false. cbv iota.
  apply absFloor_inject_Z.
  replace ((y - Y) * 12 + 0) with (- (Y - y) * 12) by lia.
  apply whole_years_quotient.
Qed.

(** With the calendar's month lengths the operations of the zone are
    those of [Dayjs]. *)
Lemma zoned_advance_calendar (fuel : nat) (today : date) :
  forall nb it, Zoned.advance daysInMonth fuel today nb it = advance fuel today nb it.
Proof.
  induction fuel as [|fuel IH]; intros nb it; cbn [Zoned.advance advance];
    destruct (Dayjs.isBefore nb today); try reflexivity.
  apply IH.
Qed.

Lemma zoned_getNextBirthday_calendar (fuel : nat) (today : date) (s : string) :
  Zoned.getNextBirthday daysInMonth fuel today s = getNextBirthday fuel today s.
Proof.
  unfold Zoned.getNextBirthday, getNextBirthday, Zoned.getNextBirthday_run,
    getNextBirthday_run.
  rewrite zoned_advance_calendar. reflexivity.
Qed.

(** In a zone with the short April of 1916 the day of an April birthday
    of 1915 is clamped to 1 and stays there, and the age comes out one
    short; a birthday in April 1916 keeps its day and has the age one
    short. *)
Lemma short_april_moves_the_day :
  Zoned.getNextBirthday Zoned.short_april_1916 110 (mkDate 2024 5 1) "1915-04-07"
  = Some (mkOccurrence (Some (mkDate 2025 3 1)) (Some 109))
  /\ Zoned.getNextBirthday Zoned.short_april_1916 110 (mkDate 2025 3 15) "1916-04-15"
     = Some (mkOccurrence (Some (mkDate 2025 3 15)) (Some 108)).
Proof. split; vm_compute; reflexivity. Qed.

(** The run on a birthday other than 29 February, where the zone gives
    the month of the birthday its calendar length in the years from the
    birth year on. *)
Lemma zoned_run_steady (dim : Z -> Z -> Z) (today : date) (s : string) (bd : date) :
  Dayjs.parse (birthday_arg today s) = Some bd ->
  valid_date bd -> feb29 bd = false ->
  months_as_calendar dim (dM bd) (dy bd) (occurrence_year today bd) ->
  forall fuel, (Z.to_nat (occurrence_year today bd - dy bd) <= fuel)%nat ->
    Zoned.getNextBirthday_run dim fuel today s
    = Some (mkOccurrence (Some (mkDate (occurrence_year today bd) (dM bd) (dD bd)))
                         (Some (occurrence_year today bd - dy bd)),
            Z.to_nat (occurrence_year today bd - dy bd)).
Proof.
  intros Hp Hv Hf Hreg fuel Hfuel.
  pose proof (fits_every_year bd Hv Hf) as Hfit.
  assert (Hroom : forall y', dy bd <= y' <= occurrence_year today bd ->
                             dD bd <= dim y' (dM bd)).
  { intros y' Hy'. rewrite (Hreg y' Hy'). apply Hfit. }
  destruct Hv as [Hm Hd].
  unfold Zoned.getNextBirthday_run. rewrite Hp.
  destruct bd as [y m d]. unfold occurrence_year in *. cbn [dy dM dD] in *.
  destruct (Z.le_gt_cases y (target_year today m d)) as [L|G].
  - rewrite Z.max_r in * by exact L.
    rewrite (zoned_advance_steady dim today m d
               (Z.to_nat (target_year today m d - y)) fuel y 0%nat)
      by (try (intros y' Hy'; apply Hroom); lia).
    rewrite zoned_diff_years_same_day by (try apply Hroom; lia).
    reflexivity.
  - rewrite Z.max_l in * by lia.
    rewrite zoned_advance_stop.
    + rewrite zoned_diff_years_same_day by (try apply Hroom; lia).
      rewrite Z.sub_diag. reflexivity.
    + cbn [Dayjs.isBefore].
      destruct (date_ltb (mkDate y m d) today) eqn:E; [|reflexivity].
      apply target_year_gt in E. lia.
Qed.

(** C1 (as amended).  For every valid birthday, every [today] and every
    time zone, [getNextBirthday] returns a day on or after [today].  When
    the birthday is not 29 February, its year is not after the year of
    [today], and the zone gives the month of the birthday its calendar
    length in the years after the birth year up to the year after
    [today], that day is the earliest one on or after [today] with the
    month and day of the birthday. *)
Theorem getNextBirthday_earliest_match_in_zone (dim : Z -> Z -> Z) (today : date)
    (s : string) (bd : date) :
  Dayjs.parse (birthday_arg today s) = Some bd ->
  valid_date bd ->
  exists (r : date) (n : nat),
    (forall fuel, (n <= fuel)%nat ->
       exists o, Zoned.getNextBirthday dim fuel today s = Some o /\ nextBirthday o = Some r)
    /\ date_leb today r = true
    /\ (feb29 bd = false -> dy bd <= dy today ->
        months_as_calendar dim (dM bd) (dy bd + 1) (dy today + 1) ->
        earliest_match bd today r).
Proof.
  intros Hp Hv.
  set (N := Z.to_nat (dy today + 1 - dy bd)).
  destruct (zoned_advance_terminates dim today N bd N 0%nat) as (r & n & Hadv & Hr);
    [lia | lia |].
  exists r, N. split; [|split].
  - intros fuel Hfuel. unfold Zoned.getNextBirthday, Zoned.getNextBirthday_run.
    rewrite Hp, (zoned_advance_more_fuel dim today N fuel Hfuel _ _ _ Hadv).
    cbn. eexists. split; reflexivity.
  - unfold date_leb. rewrite Hr. reflexivity.
  - intros Hf Hy Hreg.
    pose proof (fits_every_year bd Hv Hf) as Hfit.
    pose proof (target_year_ge today (dM bd) (dD bd)) as Hge.
    assert (Hle : target_year today (dM bd) (dD bd) <= dy today + 1).
    { unfold target_year.
      destruct (date_ltb (mkDate (dy today) (dM bd) (dD bd)) today); lia. }
    assert (E : occurrence_year today bd = target_year today (dM bd) (dD bd))
      by (unfold occurrence_year; lia).
    pose proof (zoned_advance_steady dim today (dM bd) (dD bd)
                  (Z.to_nat (target_year today (dM bd) (dD bd) - dy bd)) N (dy bd) 0%nat)
      as Hs.
    destruct bd as [y m d]. cbn [dy dM dD] in *.
    rewrite Hs in Hadv.
    + injection Hadv as <- _. rewrite <- E.
      apply (target_is_earliest today (mkDate y m d)). exact Hy.
    + intros y' Hy'. rewrite (Hreg y') by lia. apply Hfit.
    + lia.
    + lia.
Qed.

(** The theorem at the birthday 1990-01-01 with [today] 1 June 2024, in
    a zone with the short April of 1916. *)
Lemma getNextBirthday_earliest_match_in_zone_witness :
  exists (r : date) (n : nat),
    (forall fuel, (n <= fuel)%nat ->
       exists o, Zoned.getNextBirthday Zoned.short_april_1916 fuel (mkDate 2024 5 1)
                   "1990-01-01" = Some o
                 /\ nextBirthday o = Some r)
    /\ date_leb (mkDate 2024 5 1) r = true
    /\ (feb29 (mkDate 1990 0 1) = false -> dy (mkDate 1990 0 1) <= dy (mkDate 2024 5 1) ->
        months_as_calendar Zoned.short_april_1916 (dM (mkDate 1990 0 1))
          (dy (mkDate 1990 0 1) + 1) (dy (mkDate 2024 5 1) + 1) ->
        earliest_match (mkDate 1990 0 1) (mkDate 2024 5 1) r).
Proof.
  apply (getNextBirthday_earliest_match_in_zone Zoned.short_april_1916 (mkDate 2024 5 1)
           "1990-01-01" (mkDate 1990 0 1)).
  - reflexivity.
  - unfold valid_date. cbn. lia.
Defined.

(** C1 (as stated) fails for a birth date that lies ahead: the loop
    starts at the birth date and only moves a date that is before
    [today], so with [today] 1 June 2024 the birthday 2030-06-15 comes
    back as 15 June 2030, while 15 June 2024 is an earlier day on or after
    [today] with the same month and day. *)
Lemma birth_date_ahead_is_returned :
  Zoned.getNextBirthday daysInMonth 40 (mkDate 2024 5 1) "2030-06-15"
  = Some (mkOccurrence (Some (mkDate 2030 5 15)) (Some 0))
  /\ valid_date (mkDate 2030 5 15)
  /\ ~ earliest_match (mkDate 2030 5 15) (mkDate 2024 5 1) (mkDate 2030 5 15).
Proof.
  split; [vm_compute; reflexivity|]. split.
  - unfold valid_date. cbn. lia.
  - intros [_ [_ H]].
    specialize (H (mkDate 2024 5 15) eq_refl (conj eq_refl eq_refl)).
    discriminate H.
Qed.

(** X1.  On every string that [fetchContacts] hands to it (the empty
    string, [YYYY-MM-DD] or [--MMDD]), with [today] in a year of four
    digits and in every time zone, [getNextBirthday] returns: its loop is
    left after finitely many passes.  The date it returns is an Invalid
    Date exactly when the string is empty, and is otherwise on or after
    [today]. *)
Theorem getNextBirthday_terminates_on_stored (dim : Z -> Z -> Z) (today : date) (s : string) :
  1000 <= dy today <= 9999 ->
  stored_birthday s ->
  exists n : nat, forall fuel, (n <= fuel)%nat ->
    exists o,
      Zoned.getNextBirthday dim fuel today s = Some o
      /\ (forall r, nextBirthday o = Some r -> date_leb today r = true)
      /\ (nextBirthday o = None <-> s = "").
Proof.
  intros Hy Hs. pose proof (parse_stored today s Hy Hs) as Hparse.
  unfold Zoned.getNextBirthday, Zoned.getNextBirthday_run.
  destruct (Dayjs.parse (birthday_arg today s)) as [bd|] eqn:Hp.
  - set (N := Z.to_nat (dy today + 1 - dy bd)).
    destruct (zoned_advance_terminates dim today N bd N 0%nat) as (r & n & Hadv & Hr);
      [lia | lia |].
    exists N. intros fuel Hfuel.
    rewrite (zoned_advance_more_fuel dim today N fuel Hfuel _ _ _ Hadv).
    cbn. eexists. split; [reflexivity|]. cbn. split.
    + intros r' E. injection E as <-. unfold date_leb. rewrite Hr. reflexivity.
    + split; [discriminate|]. intros E. apply Hparse in E. discriminate E.
  - exists 0%nat. intros fuel _.
    rewrite zoned_advance_stop by reflexivity. cbn.
    eexists. split; [reflexivity|]. cbn.
    split; [discriminate|]. split; [intros _; apply Hparse; reflexivity | reflexivity].
Qed.

(** The theorem at the birthday 1915-04-07 with [today] 1 June 2024, in
    a zone with the short April of 1916. *)
Lemma getNextBirthday_terminates_on_stored_witness :
  exists n : nat, forall fuel, (n <= fuel)%nat ->
    exists o,
      Zoned.getNextBirthday Zoned.short_april_1916 fuel (mkDate 2024 5 1) "1915-04-07"
      = Some o
      /\ (forall r, nextBirthday o = Some r -> date_leb (mkDate 2024 5 1) r = true)
      /\ (nextBirthday o = None <-> "1915-04-07" = "").
Proof.
  apply (getNextBirthday_terminates_on_stored Zoned.short_april_1916 (mkDate 2024 5 1)
           "1915-04-07").
  - cbn. lia.
  - apply (stored_iso "1" "9" "1" "5" "0" "4" "0" "7"). reflexivity.
Defined.

(** X8.  For a valid birthday other than 29 February whose year is not
    after the year of [today], in a time zone that gives the month of the
    birthday its calendar length in the years from the birth year to the
    year after [today]: the next birthday falls in the year of [today]
    when its month and day have not passed, and in the year after
    otherwise; the age is that year minus the birth year; and the body of
    the loop runs as many times as the age says. *)
Theorem occurrence_this_year_or_next (dim : Z -> Z -> Z) (today : date) (s : string)
    (bd : date) (fuel : nat) :
  Dayjs.parse (birthday_arg today s) = Some bd ->
  valid_date bd -> feb29 bd = false -> dy bd <= dy today ->
  months_as_calendar dim (dM bd) (dy bd) (dy today + 1) ->
  let passed := date_ltb (mkDate (dy today) (dM bd) (dD bd)) today in
  let Y := if passed then dy today + 1 else dy today in
  (Z.to_nat (Y - dy bd) <= fuel)%nat ->
  Zoned.getNextBirthday_run dim fuel today s
  = Some (mkOccurrence (Some (mkDate Y (dM bd) (dD bd))) (Some (Y - dy bd)),
          Z.to_nat (Y - dy bd)).
Proof.
  intros Hp Hv Hf Hy Hreg passed Y Hfuel.
  assert (E : occurrence_year today bd = Y).
  { unfold occurrence_year, target_year. fold passed. fold Y.
    subst Y. destruct passed; lia. }
  assert (HY : Y <= dy today + 1) by (subst Y; destruct passed; lia).
  rewrite <- E in *.
  apply zoned_run_steady; try assumption.
  intros y' Hy'. apply Hreg. lia.
Qed.

(** The theorem at the birthday 1990-01-01 with [today] 1 June 2024, in
    a zone with the short April of 1916. *)
Lemma occurrence_this_year_or_next_witness :
  Zoned.getNextBirthday_run Zoned.short_april_1916 35 (mkDate 2024 5 1) "1990-01-01"
  = Some (mkOccurrence (Some (mkDate 2025 0 1)) (Some 35), 35%nat).
Proof.
  apply (occurrence_this_year_or_next Zoned.short_april_1916 (mkDate 2024 5 1)
           "1990-01-01" (mkDate 1990 0 1) 35).
  - reflexivity.
  - unfold valid_date. cbn. lia.
  - reflexivity.
  - cbn. lia.
  - intros y _. unfold Zoned.short_april_1916. cbn [dM].
    rewrite andb_false_r. reflexivity.
  - cbn. lia.
Defined.

(** X9.  On the birthday itself, for a valid birthday other than
    29 February in a time zone that gives its month the calendar length
    in the years from the birth year to the year of [today], the next
    birthday is [today], and the age is the age reached [today]. *)
Theorem occurrence_on_the_day (dim : Z -> Z -> Z) (today : date) (s : string) (bd : date)
    (fuel : nat) :
  Dayjs.parse (birthday_arg today s) = Some bd ->
  valid_date bd -> feb29 bd = false -> dy bd <= dy today ->
  dM bd = dM today -> dD bd = dD today ->
  months_as_calendar dim (dM bd) (dy bd) (dy today) ->
  (Z.to_nat (dy today - dy bd) <= fuel)%nat ->
  Zoned.getNextBirthday dim fuel today s
  = Some (mkOccurrence (Some today) (Some (dy today - dy bd))).
Proof.
  intros Hp Hv Hf Hy Hm Hd Hreg Hfuel.
  assert (Hpassed : date_ltb (mkDate (dy today) (dM bd) (dD bd)) today = false).
  { rewrite Hm, Hd. destruct today as [y m d]. apply date_ltb_irrefl. }
  unfold Zoned.getNextBirthday.
  assert (E : occurrence_year today bd = dy today).
  { unfold occurrence_year, target_year. rewrite Hpassed. lia. }
  rewrite (zoned_run_steady dim today s bd Hp Hv Hf) with (fuel := fuel);
    try (rewrite E; assumption).
  rewrite E, Hm, Hd. destruct today as [y m d]. reflexivity.
Qed.

(** The theorem at the birthday 1990-06-01 with [today] 1 June 2024, in
    a zone with the short April of 1916. *)
Lemma occurrence_on_the_day_witness :
  Zoned.getNextBirthday Zoned.short_april_1916 34 (mkDate 2024 5 1) "1990-06-01"
  = Some (mkOccurrence (Some (mkDate 2024 5 1))
            (Some (dy (mkDate 2024 5 1) - dy (mkDate 1990 5 1)))).
Proof.
  apply (occurrence_on_the_day Zoned.short_april_1916 (mkDate 2024 5 1) "1990-06-01"
           (mkDate 1990 5 1) 34);
    first [ reflexivity | unfold valid_date; cbn; lia
          | intros y _; unfold Zoned.short_april_1916; cbn [dM];
            rewrite andb_false_r; reflexivity ].
Defined.

(** ** Out-of-range months and days are carried *)

Lemma carry_day_dayNumber (fuel : nat) :
  forall y m d, 0 <= m <= 11 ->
                dayNumber (carry_day fuel y m d) = dayNumber (mkDate y m d).
Proof.
  induction fuel as [|fuel IH]; intros y m d Hm; [reflexivity|].
  cbn [carry_day]. destruct (Z.ltb_spec d 1) as [L|G].
  - destruct (Z.eq_dec m 0) as [->|N].
    + change (carry_month y (0 - 1)) with (y + -1, 11). cbv beta iota.
      rewrite IH by lia. unfold dayNumber. cbn [dy dM dD].
      replace (dayFromYear y) with (dayFromYear (y + -1 + 1)) by (f_equal; lia).
      rewrite dayFromYear_next.
      change (Z.to_nat 11) with 11%nat. change (Z.to_nat 0) with 0%nat.
      rewrite days_before_december. change (daysInMonth (y + -1) 11) with 31.
      cbn [days_before]. destruct (is_leap (y + -1)); lia.
    + rewrite carry_month_in_year by lia. cbv beta iota.
      rewrite IH by lia. unfold dayNumber. cbn [dy dM dD].
      replace (days_before y (Z.to_nat m)) with (days_before y (Z.to_nat (m - 1 + 1)))
        by (f_equal; f_equal; lia).
      rewrite days_before_next by lia. lia.
  - destruct (Z.ltb_spec (daysInMonth y m) d) as [L'|G']; [|reflexivity].
    destruct (Z.eq_dec m 11) as [->|N].
    + change (carry_month y (11 + 1)) with (y + 1, 0). cbv beta iota.
      rewrite IH by lia. unfold dayNumber. cbn [dy dM dD].
      rewrite dayFromYear_next.
      change (Z.to_nat 11) with 11%nat. change (Z.to_nat 0) with 0%nat.
      rewrite days_before_december. change (daysInMonth y 11) with 31.
      cbn [days_before]. destruct (is_leap y); lia.
    + rewrite carry_month_in_year by lia. cbv beta iota.
      rewrite IH by lia. unfold dayNumber. cbn [dy dM dD].
      rewrite days_before_next by lia. lia.
Qed.

Lemma dayFromYear_monotone (a b : Z) : a <= b -> dayFromYear a <= dayFromYear b.
Proof. intros H. unfold dayFromYear. Z.div_mod_to_equations. lia. Qed.

Lemma days_before_nonneg (y : Z) (k : nat) : 0 <= days_before y k.
Proof.
  induction k as [|k IH]; cbn [days_before]; [lia|].
  pose proof (daysInMonth_bounds y (Z.of_nat k)). lia.
Qed.

Lemma days_before_monotone (y : Z) (k2 : nat) :
  forall k1, (k1 < k2)%nat ->
             days_before y k1 + daysInMonth y (Z.of_nat k1) <= days_before y k2.
Proof.
  induction k2 as [|k2 IH]; intros k1 H; [lia|].
  cbn [days_before].
  destruct (Nat.eq_dec k1 k2) as [->|N]; [lia|].
  pose proof (IH k1 ltac:(lia)). pose proof (daysInMonth_bounds y (Z.of_nat k2)). lia.
Qed.

Lemma days_before_year (y : Z) : days_before y 12 = if is_leap y then 366 else 365.
Proof.
  change (days_before y 12) with (days_before y 11 + daysInMonth y 11).
  rewrite days_before_december. change (daysInMonth y 11) with 31.
  destruct (is_leap y); lia.
Qed.

(** The day number of a date of the calendar lies in its year. *)
Lemma dayNumber_in_year (d : date) :
  valid_date d -> dayFromYear (dy d) <= dayNumber d < dayFromYear (dy d + 1).
Proof.
  intros [Hm Hd]. unfold dayNumber.
  pose proof (days_before_nonneg (dy d) (Z.to_nat (dM d))).
  split; [lia|].
  rewrite dayFromYear_next, <- days_before_year.
  pose proof (days_before_monotone (dy d) 12 (Z.to_nat (dM d)) ltac:(lia)) as H'.
  rewrite Z2Nat.id in H' by lia. lia.
Qed.

(** An earlier date of the calendar has a smaller day number. *)
Lemma dayNumber_lt (a b : date) :
  valid_date a -> valid_date b -> date_ltb a b = true -> dayNumber a < dayNumber b.
Proof.
  intros Ha Hb H.
  pose proof (dayNumber_in_year a Ha) as Ia. pose proof (dayNumber_in_year b Hb) as Ib.
  destruct Ha as [Hma Hda], Hb as [Hmb Hdb].
  unfold date_ltb in H.
  destruct (Z.ltb_spec (dy a) (dy b)) as [Ly|Gy].
  - pose proof (dayFromYear_monotone (dy a + 1) (dy b) ltac:(lia)). lia.
  - cbn [orb] in H. apply andb_true_iff in H. destruct H as [Ey H].
    apply Z.eqb_eq in Ey. unfold dayNumber. rewrite Ey in *.
    destruct (Z.ltb_spec (dM a) (dM b)) as [Lm|Gm].
    + pose proof (days_before_monotone (dy b) (Z.to_nat (dM b)) (Z.to_nat (dM a))
                    ltac:(lia)) as H'.
      rewrite Z2Nat.id in H' by lia. lia.
    + cbn [orb] in H. apply andb_true_iff in H. destruct H as [Em H].
      apply Z.eqb_eq in Em. apply Z.ltb_lt in H. rewrite Em. lia.
Qed.

(** Dates of the calendar with the same day number are the same date. *)
Lemma dayNumber_injective (a b : date) :
  valid_date a -> valid_date b -> dayNumber a = dayNumber b -> a = b.
Proof.
  intros Ha Hb E.
  destruct (date_ltb a b) eqn:Lab.
  { pose proof (dayNumber_lt a b Ha Hb Lab). lia. }
  destruct (date_ltb b a) eqn:Lba.
  { pose proof (dayNumber_lt b a Hb Ha Lba). lia. }
  destruct a as [ya ma da], b as [yb mb db]. unfold date_ltb in Lab, Lba.
  cbn [dy dM dD] in Lab, Lba.
  assert (ya = yb).
  { destruct (Z.ltb_spec ya yb); [discriminate|].
    destruct (Z.ltb_spec yb ya); [discriminate|]. lia. }
  subst yb. rewrite Z.ltb_irrefl, Z.eqb_refl in Lab, Lba. cbn [orb andb] in Lab, Lba.
  assert (ma = mb).
  { destruct (Z.ltb_spec ma mb); [discriminate|].
    destruct (Z.ltb_spec mb ma); [discriminate|]. lia. }
  subst mb. rewrite Z.ltb_irrefl, Z.eqb_refl in Lab, Lba. cbn [orb andb] in Lab, Lba.
  apply Z.ltb_ge in Lab, Lba. f_equal. lia.
Qed.

Lemma carried_unique (y m d : Z) (r r' : date) :
  carried y m d r -> carried y m d r' -> r' = r.
Proof.
  intros [V E] [V' E']. apply dayNumber_injective; [assumption..|]. congruence.
Qed.

(** [new Date(y, m - 1, d)] is the date of the calendar that lies [d - 1]
    days after the first day of the month reached by carrying [m - 1]. *)
Lemma newDate_carried (y m d : Z) : 0 <= d -> carried y m d (newDate y (m - 1) d).
Proof.
  intros Hd. split; [apply newDate_is_valid; exact Hd|].
  unfold newDate, century, carry_month.
  pose proof (Z.mod_pos_bound (m - 1) 12).
  rewrite carry_day_dayNumber by lia.
  unfold dayNumber. cbn [dy dM dD]. lia.
Qed.

Lemma two_digits_nonneg (a b : ascii) :
  JsString.is_digit a = true -> JsString.is_digit b = true -> 0 <= JsString.number (two a b).
Proof.
  intros Ha Hb. apply number_acc_nonneg; [lia|].
  cbn [two JsString.all_digits]. rewrite Ha, Hb. reflexivity.
Qed.

Lemma fields_of_compact (today : date) (y1 y2 y3 y4 m1 m2 d1 d2 : ascii) :
  JsString.all_digits (four y1 y2 y3 y4 ++ two m1 m2 ++ two d1 d2) = true ->
  fields_of today (four y1 y2 y3 y4 ++ two m1 m2 ++ two d1 d2)
  = (JsString.number (four y1 y2 y3 y4), JsString.number (two m1 m2),
     JsString.number (two d1 d2)).
Proof.
  intros D. unfold fields_of. rewrite (includes_dash_digits _ D).
  split_digits D. unfold JsString.startsWith. cbn [four two append].
  rewrite (prefix_dash_digit y1 "-" _ D0).
  reflexivity.
Qed.

Lemma fields_of_yearless (today : date) (m1 m2 d1 d2 : ascii) :
  fields_of today (yearless m1 m2 d1 d2)
  = (dy today, JsString.number (two m1 m2), JsString.number (two d1 d2)).
Proof. reflexivity. Qed.

Lemma fields_of_iso (today : date) (y1 y2 y3 y4 m1 m2 d1 d2 : ascii) :
  JsString.all_digits (four y1 y2 y3 y4 ++ two m1 m2 ++ two d1 d2) = true ->
  fields_of today (iso y1 y2 y3 y4 m1 m2 d1 d2)
  = (JsString.number (four y1 y2 y3 y4), JsString.number (two m1 m2),
     JsString.number (two d1 d2)).
Proof.
  intros D. split_digits D.
  unfold fields_of, JsString.startsWith, JsString.includes, iso.
  cbn [four two append String.index].
  rewrite (prefix_dash_digit y1 "-" _ D0).
  rewrite (prefix_dash_digit y1 "" _ D0), (prefix_dash_digit y2 "" _ D1),
    (prefix_dash_digit y3 "" _ D2), (prefix_dash_digit y4 "" _ D3).
  reflexivity.
Qed.

(** C5 (as amended).  Normalisation raises no error.  With [today] in a
    year of four digits, the date made of the match of [bdayRegex] is an
    Invalid Date when the pattern did not match (the birthday text is then
    empty), and for every value of the three accepted shapes it is a date
    of the calendar, whatever the month and day digits are: the date that
    lies day - 1 days after the first day of the month reached from
    January of the year by month - 1 months, and no other, so that a month
    outside 1 to 12 or a day outside the month is carried into the
    neighbouring months and years (a year from 0 to 99 counting as
    1900 + year). *)
Theorem normalization_carries_out_of_range (today : date) :
  1000 <= dy today <= 9999 ->
  birthdayDate_of_match today None = None
  /\ forall v, accepted_shape v = true ->
       let '(y, m, d) := fields_of today v in
       exists r, birthdayDate_of_match today (Some v) = Some r
                 /\ carried y m d r /\ forall r', carried y m d r' -> r' = r.
Proof.
  intros Hy. split; [reflexivity|]. intros v Hv.
  destruct (accepted_shape_cases v Hv)
    as [y1 y2 y3 y4 m1 m2 d1 d2 D | m1 m2 d1 d2 D | y1 y2 y3 y4 m1 m2 d1 d2 D].
  - rewrite (fields_of_compact today _ _ _ _ _ _ _ _ D).
    rewrite (birthdayDate_of_compact today _ _ _ _ _ _ _ _ D).
    split_digits D.
    eexists. split; [reflexivity|].
    assert (C : carried (JsString.number (four y1 y2 y3 y4)) (JsString.number (two m1 m2))
                  (JsString.number (two d1 d2))
                  (newDate (JsString.number (four y1 y2 y3 y4))
                     (JsString.number (two m1 m2) - 1) (JsString.number (two d1 d2))))
      by (apply newDate_carried; apply two_digits_nonneg; assumption).
    split; [exact C|]. intros r' C'. exact (carried_unique _ _ _ _ _ C C').
  - rewrite fields_of_yearless.
    rewrite (birthdayDate_of_yearless today _ _ _ _ Hy D).
    split_digits D.
    eexists. split; [reflexivity|].
    assert (C : carried (dy today) (JsString.number (two m1 m2))
                  (JsString.number (two d1 d2))
                  (newDate (dy today)
                     (JsString.number (two m1 m2) - 1) (JsString.number (two d1 d2))))
      by (apply newDate_carried; apply two_digits_nonneg; assumption).
    split; [exact C|]. intros r' C'. exact (carried_unique _ _ _ _ _ C C').
  - rewrite (fields_of_iso today _ _ _ _ _ _ _ _ D).
    rewrite (birthdayDate_of_iso today _ _ _ _ _ _ _ _ D).
    split_digits D.
    eexists. split; [reflexivity|].
    assert (C : carried (JsString.number (four y1 y2 y3 y4)) (JsString.number (two m1 m2))
                  (JsString.number (two d1 d2))
                  (newDate (JsString.number (four y1 y2 y3 y4))
                     (JsString.number (two m1 m2) - 1) (JsString.number (two d1 d2))))
      by (apply newDate_carried; apply two_digits_nonneg; assumption).
    split; [exact C|]. intros r' C'. exact (carried_unique _ _ _ _ _ C C').
Qed.

(** The theorem with [today] 1 June 2024. *)
Lemma normalization_carries_out_of_range_witness :
  birthdayDate_of_match (mkDate 2024 5 1) None = None
  /\ forall v, accepted_shape v = true ->
       let '(y, m, d) := fields_of (mkDate 2024 5 1) v in
       exists r, birthdayDate_of_match (mkDate 2024 5 1) (Some v) = Some r
                 /\ carried y m d r /\ forall r', carried y m d r' -> r' = r.
Proof.
  apply (normalization_carries_out_of_range (mkDate 2024 5 1)). cbn. lia.
Defined.

(** ** The name is the trimmed rest of the first [FN:] line *)

Lemma take_line_at_end (s : string) : at_line_end s = true -> Regex.take_line s = "".
Proof. destruct s as [|c s]; [reflexivity|]. cbn. intros ->. reflexivity. Qed.

Lemma take_line_app (g post : string) :
  no_line_break g = true -> at_line_end post = true -> Regex.take_line (g ++ post) = g.
Proof.
  intros Hg Hp. induction g as [|c g IH]; [exact (take_line_at_end post Hp)|].
  cbn [no_line_break] in Hg. apply andb_true_iff in Hg. destruct Hg as [Hc Hg].
  cbn [append Regex.take_line]. apply negb_true_iff in Hc. rewrite Hc, (IH Hg). reflexivity.
Qed.

Lemma fn_at_line (g post : string) :
  g <> "" -> no_line_break g = true -> at_line_end post = true ->
  Regex.fn_at ("FN:" ++ g ++ post) = Some g.
Proof.
  intros Hne Hg Hp. unfold Regex.fn_at.
  change (JsString.startsWith "FN:" ("FN:" ++ g ++ post))
    with (String.prefix "" (g ++ post)).
  rewrite prefix_empty. change (JsString.drop 3 ("FN:" ++ g ++ post)) with (g ++ post).
  rewrite (take_line_app g post Hg Hp). destruct g; [contradiction|reflexivity].
Qed.

(** The leftmost match is the one at the first position where the
    pattern matches. *)
Lemma search_first (at_start : string -> option string) (pre s g : string) :
  at_start s = Some g ->
  (forall p r, pre ++ s = p ++ r -> (String.length p < String.length pre)%nat ->
               at_start r = None) ->
  Regex.search at_start (pre ++ s) = Some g.
Proof.
  intros Hs. induction pre as [|c pre IH]; intros H.
  - cbn [append]. destruct s; cbn [Regex.search]; rewrite Hs; reflexivity.
  - cbn [append Regex.search].
    rewrite (H "" (String c (pre ++ s)) eq_refl) by (cbn; lia).
    apply IH. intros p r E L. apply (H (String c p) r).
    + cbn [append]. rewrite E. reflexivity.
    + cbn [String.length]. lia.
Qed.

Lemma search_nowhere (at_start : string -> option string) (s : string) :
  (forall p r, s = p ++ r -> at_start r = None) -> Regex.search at_start s = None.
Proof.
  induction s as [|c s IH]; intros H; cbn [Regex.search].
  - rewrite (H "" "" eq_refl). reflexivity.
  - rewrite (H "" (String c s) eq_refl). apply IH.
    intros p r E. apply (H (String c p) r). cbn [append]. rewrite E. reflexivity.
Qed.

Lemma trimStart_split (s : string) :
  exists ws, s = ws ++ JsString.trimStart s /\ all_space ws = true.
Proof.
  induction s as [|c s (ws & E & A)]; [exists ""; split; reflexivity|].
  cbn [JsString.trimStart]. destruct (JsString.is_space c) eqn:Sc.
  - exists (String c ws). cbn [append all_space]. rewrite Sc, A, <- E. split; reflexivity.
  - exists "". split; reflexivity.
Qed.

Lemma trimEnd_split (s : string) :
  exists ws, s = JsString.trimEnd s ++ ws /\ all_space ws = true.
Proof.
  induction s as [|c s (ws & E & A)]; [exists ""; split; reflexivity|].
  cbn [JsString.trimEnd]. destruct (JsString.trimEnd s) as [|c' t].
  - cbn [append] in E. subst s. destruct (JsString.is_space c) eqn:Sc.
    + exists (String c ws). cbn [append all_space]. rewrite Sc, A. split; reflexivity.
    + exists ws. split; [reflexivity | exact A].
  - exists ws. cbn [append] in *. rewrite <- E. split; [reflexivity | exact A].
Qed.

(** [trim] takes the white space off the two ends, and nothing else. *)
Lemma trim_trimmed (g : string) : no_line_break g = true -> trimmed g (JsString.trim g).
Proof.
  intros Hnb. unfold trimmed, JsString.trim.
  destruct (trimStart_props g Hnb) as [T1 T2].
  destruct (trimEnd_props (JsString.trimStart g) T1) as (_ & T4 & T5).
  split; [|split; [exact (T5 T2) | exact T4]].
  destruct (trimStart_split g) as (ws1 & E1 & A1).
  destruct (trimEnd_split (JsString.trimStart g)) as (ws2 & E2 & A2).
  exists ws1, ws2. split; [|split; assumption].
  rewrite <- E2. exact E1.
Qed.

Lemma trimStart_all_space (ws : string) : all_space ws = true -> JsString.trimStart ws = "".
Proof.
  induction ws as [|c ws IH]; [reflexivity|]. cbn [all_space JsString.trimStart].
  intros H. apply andb_true_iff in H. destruct H as [-> H]. exact (IH H).
Qed.

Lemma trimEnd_all_space (ws : string) : all_space ws = true -> JsString.trimEnd ws = "".
Proof.
  induction ws as [|c ws IH]; [reflexivity|]. cbn [all_space JsString.trimEnd].
  intros H. apply andb_true_iff in H. destruct H as [-> H]. rewrite (IH H). reflexivity.
Qed.

Lemma trimStart_app_space (ws x : string) :
  all_space ws = true -> JsString.trimStart (ws ++ x) = JsString.trimStart x.
Proof.
  induction ws as [|c ws IH]; [reflexivity|]. cbn [all_space append JsString.trimStart].
  intros H. apply andb_true_iff in H. destruct H as [-> H]. exact (IH H).
Qed.

Lemma trimEnd_app_space (t ws : string) :
  ends_with_space t = false -> all_space ws = true -> JsString.trimEnd (t ++ ws) = t.
Proof.
  intros Ht Hws. induction t as [|c t IH]; [exact (trimEnd_all_space ws Hws)|].
  cbn [append JsString.trimEnd]. destruct t as [|c' t].
  - cbn [append]. rewrite (trimEnd_all_space ws Hws).
    cbn [ends_with_space] in Ht. rewrite Ht. reflexivity.
  - rewrite (IH Ht). reflexivity.
Qed.

(** Only [trim g] is [g] without the white space at its two ends. *)
Lemma trimmed_is_trim (g t : string) : trimmed g t -> t = JsString.trim g.
Proof.
  intros ((ws1 & ws2 & E & A1 & A2) & S1 & S2). subst g. unfold JsString.trim.
  rewrite (trimStart_app_space ws1 _ A1).
  destruct t as [|c t].
  - cbn [append]. rewrite (trimStart_all_space ws2 A2). reflexivity.
  - cbn [append JsString.trimStart]. cbn [starts_with_space] in S1. rewrite S1.
    symmetry. exact (trimEnd_app_space (String c t) ws2 S2 A2).
Qed.

(** X14.  For a record of ASCII text: the name of a contact is read from
    the first [FN:] that has text after it on its line, wherever in the
    record it stands; it is the text from there up to the end of that line
    (a line feed, a carriage return or the end of the record) without the
    white space at its two ends, and nothing else is.  A record in which every [FN:] stands at
    the end of its line, or that has none, gives the empty name. *)
Theorem fullName_of_first_FN_line (data : string) :
  ascii_text data = true ->
  (forall pre g post,
      FN_line_at data pre g post -> g <> "" ->
      (forall p g' post', FN_line_at data p g' post' ->
                          (String.length p < String.length pre)%nat -> g' = "") ->
      trimmed g (fullName_of data) /\ forall t, trimmed g t -> t = fullName_of data)
  /\ ((forall p g' post', FN_line_at data p g' post' -> g' = "") -> fullName_of data = "").
Proof.
  intros _.
  assert (Hnone : forall r,
             (forall g' post', r = "FN:" ++ g' ++ post' -> no_line_break g' = true ->
                               at_line_end post' = true -> g' = "") ->
             Regex.fn_at r = None).
  { intros r H. destruct (Regex.fn_at r) as [g'|] eqn:E; [|reflexivity].
    destruct (fn_at_prefix r g' E) as (Hne & Hnb & post' & Hr & Hp).
    exfalso. exact (Hne (H g' post' Hr Hnb Hp)). }
  split.
  - intros pre g post (E & Hnb & Hp) Hne Hfirst.
    assert (F : Regex.search Regex.fn_at data = Some g).
    { rewrite E. apply (search_first Regex.fn_at pre _ g (fn_at_line g post Hne Hnb Hp)).
      intros p r Er L. apply (Hnone r). intros g' post' Hr Hg' Hp'.
      apply (Hfirst p g' post'); [|exact L].
      split; [|split; assumption]. rewrite E, Er, Hr. reflexivity. }
    unfold fullName_of, Regex.fnRegex. rewrite F.
    split; [apply trim_trimmed; exact Hnb | exact (trimmed_is_trim g)].
  - intros Hall. unfold fullName_of, Regex.fnRegex.
    rewrite (search_nowhere Regex.fn_at data); [reflexivity|].
    intros p r Er. apply (Hnone r). intros g' post' Hr Hg' Hp'.
    apply (Hall p g' post'). split; [|split; assumption]. rewrite Er, Hr. reflexivity.
Qed.

(** The theorem on a record with the name line [FN: Ann Lee ] after two
    other lines. *)
Lemma fullName_of_first_FN_line_witness :
  ascii_text (vcard " Ann Lee " "1990-06-05") = true
  /\ trimmed " Ann Lee " (fullName_of (vcard " Ann Lee " "1990-06-05"))
  /\ forall t, trimmed " Ann Lee " t -> t = fullName_of (vcard " Ann Lee " "1990-06-05").
Proof.
  split; [reflexivity|].
  apply (proj1 (fullName_of_first_FN_line (vcard " Ann Lee " "1990-06-05") eq_refl)
           ("BEGIN:VCARD" ++ LF ++ "VERSION:3.0" ++ LF) " Ann Lee "
           (LF ++ "BDAY:1990-06-05" ++ LF ++ "END:VCARD")).
  - split; [reflexivity|]. split; reflexivity.
  - discriminate.
  - intros p g' post' (E & _) L. exfalso. vm_compute in E. cbn in L.
    repeat (destruct p as [|? p];
            [cbn in E; discriminate E | cbn in E, L; injection E as _ E]).
    lia.
Defined.
